(** * BTC OHLC data updater ([update_data.py]): model and verified properties

    The script keeps a CSV table of hourly candles up to date: it loads the
    stored table, asks three market-data providers in a fixed order for the
    most recent candles, merges the answer into the stored table (keep-last
    on equal timestamps, then sort) and writes the table back.

    The model follows the script function by function.  A pandas DataFrame
    indexed by [timestamp] is a list of rows (index label, value columns) in
    frame order; the wall clock used for the log prefix is left out. *)

From Stdlib Require Import String ZArith List Bool Lia Permutation Sorted.
Import ListNotations.
Local Open Scope Z_scope.

(** ** Data model *)

(** A pandas [Timestamp] of dtype [datetime64[ns]]: nanoseconds counted from
    1970-01-01 00:00:00, either of UTC (tz-aware values) or of the wall clock
    (naive values).  The frames of a run carry such time stamps as labels;
    labels that are missing ([NaT]) or text are treated further down, under
    "Frames as pandas can hold them". *)
Abbreviation Timestamp := Z (only parsing).

(** The five value columns of one row.  The cells are float64 in pandas; the
    reconciler and the orchestrator move them around without looking inside,
    so the cell type is left open. *)
Record Candle {price : Type} : Type := mkCandle {
  open : price;
  high : price;
  low : price;
  close : price;
  volume : price
}.
Arguments Candle price : clear implicits.
Arguments mkCandle {price} _ _ _ _ _.

Section Frames.
Context {price : Type}.

Definition Row : Type := Timestamp * Candle price.
Definition DataFrame : Type := list Row.

(** [df.index] *)
Definition index (df : DataFrame) : list Timestamp := map fst df.

(** [len(df)] *)
Definition len (df : DataFrame) : Z := Z.of_nat (length df).

(** [pd.concat([a, b])]: the rows of [a] followed by the rows of [b]. *)
Definition concat (a b : DataFrame) : DataFrame := a ++ b.

(** [idx.duplicated(keep='last')]: position [i] is marked when the same
    label occurs again at a later position. *)
Fixpoint duplicated_last (idx : list Timestamp) : list bool :=
  match idx with
  | [] => []
  | t :: rest => existsb (Z.eqb t) rest :: duplicated_last rest
  end.

(** [~mask] *)
Definition invert (mask : list bool) : list bool := map negb mask.

(** [df[mask]]: boolean indexing, the rows whose mask entry is [True]. *)
Fixpoint select_rows (mask : list bool) (df : DataFrame) : DataFrame :=
  match mask, df with
  | m :: ms, r :: rs => if m then r :: select_rows ms rs else select_rows ms rs
  | _, _ => []
  end.

(** [df.sort_index()]: rows in ascending order of their index label.  The
    sort is written as an insertion sort; pandas' default algorithm may
    order rows of equal label differently, which cannot show where the
    labels are unique (lemma [sort_index_canonical]). *)
Fixpoint insert_row (r : Row) (df : DataFrame) : DataFrame :=
  match df with
  | [] => [r]
  | x :: xs => if fst r <=? fst x then r :: x :: xs else x :: insert_row r xs
  end.

Fixpoint sort_index (df : DataFrame) : DataFrame :=
  match df with
  | [] => []
  | r :: rs => insert_row r (sort_index rs)
  end.

(** ** Reconciler: lines 276-282 of [update_csv] *)
Definition merge (df_existing df_new : DataFrame) : DataFrame :=
  let df_combined := concat df_existing df_new in
  let df_combined :=
    select_rows (invert (duplicated_last (index df_combined))) df_combined in
  sort_index df_combined.

(** ** Vocabulary of the statements *)

(** [df.loc[ts]]: every row carrying the label [ts], in frame order. *)
Definition loc (ts : Timestamp) (df : DataFrame) : DataFrame :=
  filter (fun r => fst r =? ts) df.

(** The last row of a frame carrying the label [ts]. *)
Fixpoint last_at (ts : Timestamp) (df : DataFrame) : option Row :=
  match df with
  | [] => None
  | r :: rs =>
      match last_at ts rs with
      | Some x => Some x
      | None => if fst r =? ts then Some r else None
      end
  end.

(** Keep-last deduplication written as a recursion over the rows. *)
Fixpoint drop_duplicates_last (df : DataFrame) : DataFrame :=
  match df with
  | [] => []
  | r :: rs =>
      if existsb (Z.eqb (fst r)) (index rs)
      then drop_duplicates_last rs
      else r :: drop_duplicates_last rs
  end.

(** The table invariant, as a check on the index: every label is strictly
    smaller than its successor. *)
Fixpoint increasing (idx : list Timestamp) : bool :=
  match idx with
  | a :: (b :: _) as rest => (a <? b) && increasing rest
  | _ => true
  end.

Definition table_invariant (df : DataFrame) : Prop :=
  increasing (index df) = true.

(** Row order by index label. *)
Definition row_lt (a b : Row) : Prop := fst a < fst b.
Definition row_le (a b : Row) : Prop := fst a <= fst b.

End Frames.

Arguments Row price : clear implicits.
Arguments DataFrame price : clear implicits.

(** ** Frames as pandas can hold them

    The frames above carry time stamps as labels, which is what the
    adapters and a well-kept CSV file give.  An index can hold more: a
    missing time stamp ([NaT]: a blank cell of the CSV file, a null time of
    a provider whose time field is not cast to an integer), or text (the
    cells of a CSV time stamp column that did not parse as dates).  The
    reconciler is modelled a second time on such labels; on frames of time
    stamps the two agree (lemma [any_merge_stamped]). *)

Inductive Label : Type :=
| Stamp (t : Z)
| Text (s : string)
| NaT.

(** Equality as [duplicated] sees it: two missing labels are equal. *)
Definition label_eqb (a b : Label) : bool :=
  match a, b with
  | Stamp x, Stamp y => x =? y
  | Text s, Text u => String.eqb s u
  | NaT, NaT => true
  | _, _ => false
  end.

Definition is_stamp (a : Label) : bool :=
  match a with Stamp _ => true | _ => false end.

Definition is_text (a : Label) : bool :=
  match a with Text _ => true | _ => false end.

(** [a < b] on two labels: time stamps by value, text in dictionary order
    of its characters; with a missing label the comparison is False. *)
Definition label_ltb (a b : Label) : bool :=
  match a, b with
  | Stamp x, Stamp y => x <? y
  | Text s, Text u => String.ltb s u
  | _, _ => false
  end.

(** The order [sort_index] leaves the labels in: ascending, missing labels
    last.  Text against a time stamp is never ordered by the code, the sort
    raises instead (see [any_sort_index]); the value given here is not
    used. *)
Definition label_leb (a b : Label) : bool :=
  match a, b with
  | Stamp x, Stamp y => x <=? y
  | Text s, Text u => String.leb s u
  | _, NaT => true
  | NaT, _ => false
  | Stamp _, Text _ => true
  | Text _, Stamp _ => false
  end.

(** An index that holds both time stamps and text. *)
Definition mixed (idx : list Label) : bool :=
  existsb is_stamp idx && existsb is_text idx.

(** The table invariant as a check on such an index. *)
Fixpoint any_increasing (idx : list Label) : bool :=
  match idx with
  | a :: (b :: _) as rest => label_ltb a b && any_increasing rest
  | _ => true
  end.

Fixpoint any_duplicated_last (idx : list Label) : list bool :=
  match idx with
  | [] => []
  | t :: rest => existsb (label_eqb t) rest :: any_duplicated_last rest
  end.

Section AnyFrames.
Context {price : Type}.

Definition AnyRow : Type := Label * Candle price.
Definition AnyFrame : Type := list AnyRow.

Definition labels (df : AnyFrame) : list Label := map fst df.

Fixpoint any_select_rows (mask : list bool) (df : AnyFrame) : AnyFrame :=
  match mask, df with
  | m :: ms, r :: rs =>
      if m then r :: any_select_rows ms rs else any_select_rows ms rs
  | _, _ => []
  end.

Fixpoint any_insert_row (r : AnyRow) (df : AnyFrame) : AnyFrame :=
  match df with
  | [] => [r]
  | x :: xs =>
      if label_leb (fst r) (fst x) then r :: x :: xs
      else x :: any_insert_row r xs
  end.

Fixpoint any_sort_rows (df : AnyFrame) : AnyFrame :=
  match df with
  | [] => []
  | r :: rs => any_insert_row r (any_sort_rows rs)
  end.

(** [df.sort_index()]: [None] is the TypeError raised when a time stamp is
    compared with text, which sorting an index that holds both must do. *)
Definition any_sort_index (df : AnyFrame) : option AnyFrame :=
  if mixed (labels df) then None else Some (any_sort_rows df).

(** Lines 276-282 of [update_csv] on such frames. *)
Definition any_merge (df_existing df_new : AnyFrame) : option AnyFrame :=
  let df_combined := df_existing ++ df_new in
  let df_combined :=
    any_select_rows (invert (any_duplicated_last (labels df_combined)))
                    df_combined in
  any_sort_index df_combined.

(** Keep-last deduplication written as a recursion over the rows. *)
Fixpoint any_drop_duplicates_last (df : AnyFrame) : AnyFrame :=
  match df with
  | [] => []
  | r :: rs =>
      if existsb (label_eqb (fst r)) (labels rs)
      then any_drop_duplicates_last rs
      else r :: any_drop_duplicates_last rs
  end.

(** A frame of time stamps seen as a frame of labels. *)
Definition stamped (df : DataFrame price) : AnyFrame :=
  map (fun r => (Stamp (fst r), snd r)) df.

Definition any_row_le (a b : AnyRow) : Prop := label_leb (fst a) (fst b) = true.

End AnyFrames.

Arguments AnyRow price : clear implicits.
Arguments AnyFrame price : clear implicits.

(** ** Timestamp conversion (lines 78-82, 137-141, 205-209) *)

Definition NS_PER_S : Z := 1000000000.
Definition NS_PER_MS : Z := 1000000.

(** Bounds of [datetime64[ns]]: [pd.Timestamp.min.value] and
    [pd.Timestamp.max.value]. *)
Definition TIMESTAMP_MIN : Z := -9223372036854775807.
Definition TIMESTAMP_MAX : Z := 9223372036854775807.

(** [pd.to_datetime(x, unit=..., utc=True)] for an integer [x] counted in
    units of [unit_ns] nanoseconds; [None] stands for the
    [OutOfBoundsDatetime] exception that pandas 2 raises outside the range
    of nanosecond time stamps. *)
Definition to_datetime (unit_ns : Z) (x : Z) : option Timestamp :=
  let ns := x * unit_ns in
  if (TIMESTAMP_MIN <=? ns) && (ns <=? TIMESTAMP_MAX) then Some ns else None.

(** The zone ['Asia/Singapore'] of the IANA time zone database: each entry
    gives the UTC second from which an offset (in seconds) applies; before
    the first entry local mean time applies. *)
Definition SINGAPORE_LMT : Z := 24925.
Definition SINGAPORE_TRANSITIONS : list (Z * Z) :=
  [ (-2177477725, 24925)   (* 1901-01-01  SMT   +6:55:25 *)
  ; (-2038200925, 25200)   (* 1905-06-01  +07            *)
  ; (-1167634800, 26400)   (* 1933-01-01  +0720 (DST)    *)
  ; (-1073028000, 26400)   (* 1936-01-01  +0720          *)
  ; (-894180000, 27000)    (* 1941-09-01  +0730          *)
  ; (-879665400, 32400)    (* 1942-02-16  +09            *)
  ; (-767005200, 27000)    (* 1945-09-12  +0730          *)
  ; (378662400, 28800)     (* 1981-12-31 16:00 UTC  +08  *)
  ].

Fixpoint offset_at (current : Z) (table : list (Z * Z)) (utc_s : Z) : Z :=
  match table with
  | [] => current
  | (since, off) :: rest =>
      if since <=? utc_s then offset_at off rest utc_s else current
  end.

Definition singapore_utcoffset (utc_s : Z) : Z :=
  offset_at SINGAPORE_LMT SINGAPORE_TRANSITIONS utc_s.

(** [.dt.tz_convert('Asia/Singapore').dt.tz_localize(None)]: the wall clock
    of the zone at the instant, with the offset dropped.  For an instant
    within a few hours of the upper bound of the type the sum leaves the
    range of the type; what pandas stores then is not modelled, and the
    statements below keep away from it. *)
Definition tz_convert_localize (utc : Timestamp) : Timestamp :=
  utc + singapore_utcoffset (utc / NS_PER_S) * NS_PER_S.

(** The conversion of one provider time stamp, in the adapter's unit. *)
Definition convert_timestamp (unit_ns : Z) (x : Z) : option Timestamp :=
  option_map tz_convert_localize (to_datetime unit_ns x).

(** Days from 1970-01-01 to a date of the proleptic Gregorian calendar, and
    the value of the naive time stamp [pd.Timestamp(y, m, d, hh, mm, ss)]. *)
Definition days_from_civil (y m d : Z) : Z :=
  let y' := if m <=? 2 then y - 1 else y in
  let era := y' / 400 in
  let yoe := y' - era * 400 in
  let mp := if m <=? 2 then m + 9 else m - 3 in
  let doy := (153 * mp + 2) / 5 + d - 1 in
  let doe := yoe * 365 + yoe / 4 - yoe / 100 + doy in
  era * 146097 + doe - 719468.

Definition civil (y m d hh mm ss : Z) : Timestamp :=
  (days_from_civil y m d * 86400 + hh * 3600 + mm * 60 + ss) * NS_PER_S.

(** Epoch milliseconds of a UTC date and time, as the providers send them. *)
Definition epoch_ms (y m d hh mm ss : Z) : Z :=
  (days_from_civil y m d * 86400 + hh * 3600 + mm * 60 + ss) * 1000.

(** ** Effects: the trace of a run *)

Inductive Api : Type := Bybit | OKX | CryptoCompare.

(** The lines handed to [log], without the clock prefix. *)
Inductive Message : Type :=
| CsvLatest (latest : option Timestamp)   (* "Current CSV latest timestamp" *)
| CsvLatestText                           (* the same line, the latest value being text *)
| CsvNotFound                             (* "CSV file not found" *)
| CsvReadError                            (* "Error reading CSV" *)
| Trying (api : Api)
| ApiError (api : Api)                    (* envelope carries an error code *)
| NoData (api : Api)
| Fetched (api : Api) (rows : Z)
| DateRange (first last : option Timestamp)
| ApiFailed (api : Api)                   (* an exception inside the adapter *)
| Fetching (limit : Z)
| FetchedFrom (api : Api)                 (* "Successfully fetched data from" *)
| AllApisFailed
| Banner
| Starting
| CannotProceed
| FetchFailed
| Updated
| TotalRows (rows : Z)
| Earliest (ts : option Timestamp)
| Latest (ts : option Timestamp)
| NewRows (rows : Z)
| Refreshed                               (* "no new rows, but data refreshed" *)
| Completed                               (* "Data update completed successfully" *)
| UpdateFailed                            (* "Data update failed" *)
| Unexpected.                             (* "Unexpected error" *)

Inductive Event : Type :=
| Request (api : Api) (limit : Z)         (* [requests.get] to the provider *)
| Log (m : Message).

(** Computations that emit events: the value and the events in order. *)
Definition Traced (A : Type) : Type := A * list Event.

Definition ret {A} (a : A) : Traced A := (a, []).

Definition bind {A B} (c : Traced A) (k : A -> Traced B) : Traced B :=
  let (b, t) := k (fst c) in (b, snd c ++ t).

Declare Scope traced_scope.
Delimit Scope traced_scope with traced.
Notation "x <- c ;; k" := (bind c (fun x => k))
  (at level 61, c at next level, right associativity) : traced_scope.
Notation "c ;; k" := (bind c (fun _ => k))
  (at level 61, right associativity) : traced_scope.

(** [log(message)] *)
Definition log (m : Message) : Traced unit := (tt, [Log m]).

(** The providers asked during a run, in order. *)
Fixpoint requests (t : list Event) : list Api :=
  match t with
  | [] => []
  | Request api _ :: rest => api :: requests rest
  | Log _ :: rest => requests rest
  end.

(** All-or-nothing conversion of a column: one failing entry raises. *)
Fixpoint traverse {A B} (f : A -> option B) (l : list A) : option (list B) :=
  match l with
  | [] => Some []
  | a :: rest =>
      match f a, traverse f rest with
      | Some b, Some bs => Some (b :: bs)
      | _, _ => None
      end
  end.

(** ** Providers, store and orchestrator *)

Definition LIMIT : Z := 100.

Definition INT64_MIN : Z := -9223372036854775808.
Definition INT64_MAX : Z := 9223372036854775807.

(** [series.astype(int)] on one cell: the cell holds the integer its text
    spells, if any; a cell that spells none, or one outside int64, raises. *)
Definition astype_int (cell : option Z) : option Z :=
  match cell with
  | Some n => if (INT64_MIN <=? n) && (n <=? INT64_MAX) then Some n else None
  | None => None
  end.

Section Program.
Context {raw price : Type}.

(** [pd.to_numeric(cell, errors='coerce')]: a float, NaN where the cell
    does not parse; it never raises. *)
Variable to_numeric : raw -> price.

(** One record of a provider's payload: its time field and the five value
    fields; the provider's other fields are dropped by the adapters.  The
    time field is the integer it holds or spells, [None] when it is text
    that spells no integer.  A record of another width, and a null time
    (which the seconds field of CryptoCompare, not being cast, would turn
    into a row without time stamp), have no value in this type. *)
Record Kline : Type := mkKline {
  open_time : option Z;
  cells : Candle raw
}.

(** What one HTTP exchange yields: [Unavailable] when [requests.get],
    [raise_for_status] or [response.json] raises, otherwise the envelope
    with its success code checked and its list of records. *)
Inductive Response : Type :=
| Unavailable
| Envelope (success : bool) (klines : list Kline).

(** The surroundings of one run: what each provider answers, and after how
    many write steps (if ever) the write of the CSV file is cut short. *)
Record Env : Type := mkEnv {
  network : Api -> Response;
  write_fault : option nat
}.

Local Open Scope traced_scope.

(** [requests.get(url, params=params, timeout=30)] *)
Definition request (env : Env) (api : Api) (limit : Z) : Traced Response :=
  (network env api, [Request api limit]).

Definition coerce (c : Candle raw) : Candle price :=
  mkCandle (to_numeric (open c)) (to_numeric (high c)) (to_numeric (low c))
           (to_numeric (close c)) (to_numeric (volume c)).

(** [df.index.min()] and [df.index.max()]; [None] is [NaT]. *)
Definition index_min (df : DataFrame price) : option Timestamp :=
  match index df with
  | [] => None
  | t :: rest => Some (fold_left Z.min rest t)
  end.

Definition index_max (df : DataFrame price) : option Timestamp :=
  match index df with
  | [] => None
  | t :: rest => Some (fold_left Z.max rest t)
  end.

(** One record turned into a row: time stamp converted, values coerced. *)
Definition kline_row (cast : option Z -> option Z) (unit_ns : Z) (k : Kline)
  : option (Row price) :=
  match cast (open_time k) with
  | Some x =>
      match convert_timestamp unit_ns x with
      | Some ts => Some (ts, coerce (cells k))
      | None => None
      end
  | None => None
  end.

(** The three adapters share one body; they differ in the endpoint, in the
    unit of the time field and in whether the field is cast from text.
    Sorting by the [timestamp] column and then indexing by it (Bybit, OKX),
    or indexing and then sorting the index (CryptoCompare), both leave the
    rows in ascending order of their label. *)
Definition adapter (api : Api) (cast : option Z -> option Z) (unit_ns : Z)
           (env : Env) (limit : Z) : Traced (option (DataFrame price)) :=
  log (Trying api) ;;
  response <- request env api limit ;;
  match response with
  | Unavailable => log (ApiFailed api) ;; ret None
  | Envelope success klines =>
      if negb success then log (ApiError api) ;; ret None
      else
        match klines with
        | [] => log (NoData api) ;; ret None
        | _ :: _ =>
            match traverse (kline_row cast unit_ns) klines with
            | None => log (ApiFailed api) ;; ret None
            | Some df =>
                let df := sort_index df in
                log (Fetched api (len df)) ;;
                log (DateRange (index_min df) (index_max df)) ;;
                ret (Some df)
            end
        end
  end.

Definition fetch_from_bybit : Env -> Z -> Traced (option (DataFrame price)) :=
  adapter Bybit astype_int NS_PER_MS.

Definition fetch_from_cryptocompare : Env -> Z -> Traced (option (DataFrame price)) :=
  adapter CryptoCompare (fun cell => cell) NS_PER_S.

Definition fetch_from_okx : Env -> Z -> Traced (option (DataFrame price)) :=
  adapter OKX astype_int NS_PER_MS.

(** ** Fallback fetcher: [fetch_recent_klines] *)

Definition apis : list (Api * (Env -> Z -> Traced (option (DataFrame price)))) :=
  [ (Bybit, fetch_from_bybit)
  ; (OKX, fetch_from_okx)
  ; (CryptoCompare, fetch_from_cryptocompare) ].

(** [df is not None and len(df) > 0] *)
Definition usable (df : option (DataFrame price)) : bool :=
  match df with
  | Some df => len df >? 0
  | None => false
  end.

(** The [for] loop over [apis] and the lines after it. *)
Fixpoint try_apis (l : list (Api * (Env -> Z -> Traced (option (DataFrame price)))))
         (env : Env) (limit : Z) : Traced (option (DataFrame price)) :=
  match l with
  | [] => log AllApisFailed ;; ret None
  | (name, fetch_func) :: rest =>
      df <- fetch_func env limit ;;
      if usable df then log (FetchedFrom name) ;; ret df
      else try_apis rest env limit
  end.

Definition fetch_recent_klines (env : Env) (limit : Z)
  : Traced (option (DataFrame price)) :=
  log (Fetching limit) ;;
  try_apis apis env limit.

(** ** Store *)

(** The CSV file, line by line: the header; a row whose time stamp cell
    reads as a date and time; a row whose time stamp cell holds other text;
    a line that cannot be split into the header's columns (it has too many
    fields).  [None] is the absent file.  A row with a blank time stamp
    cell, which pandas loads with a missing label, is not among the lines. *)
Inductive Line : Type :=
| Header
| Record_ (r : Row price)
| TextRecord (stamp : string) (c : Candle price)
| Malformed.

Definition File : Type := option (list Line).

Definition parse_line (l : Line) : option (Row price) :=
  match l with
  | Record_ r => Some r
  | _ => None
  end.

Definition is_malformed (l : Line) : bool :=
  match l with
  | Malformed => true
  | _ => false
  end.

(** What [pd.read_csv] gives: one of two kinds of exception, a frame whose
    time stamp column was parsed, or a frame whose time stamp column was
    left as text because one of its cells is no date. *)
Inductive ReadResult : Type :=
| FileNotFoundError
| OtherError
| Frame (df : DataFrame price)
| TextFrame (lines : list Line).

(** [pd.read_csv(csv_file, parse_dates=['timestamp'])] followed by the
    [set_index('timestamp')] of [update_csv].  The first line is taken as
    the header: an empty file, or a first line that does not name the
    [timestamp] column, raises; so does a line with too many fields.  With
    all lines split, the time stamp column is parsed if every cell is a
    date; a later line that repeats the header is a row of text like any
    other. *)
Definition read_csv (file : File) : ReadResult :=
  match file with
  | None => FileNotFoundError
  | Some (Header :: rest) =>
      if existsb is_malformed rest then OtherError
      else
        match traverse parse_line rest with
        | Some df => Frame df
        | None => TextFrame rest
        end
  | Some _ => OtherError
  end.

(** The frame handed on by [get_latest_timestamp_from_csv], and the latest
    time stamp beside it: a time stamp, [NaT] for an empty column
    ([LatestStamp None]), or text. *)
Inductive Loaded : Type :=
| Parsed (df : DataFrame price)
| Unparsed (lines : list Line).

Inductive LatestValue : Type :=
| LatestStamp (t : option Timestamp)
| LatestText.

(** The value pair returned by [get_latest_timestamp_from_csv]; Python's
    [None] is [None]. *)
Definition get_latest_timestamp_from_csv (file : File)
  : Traced (option LatestValue * option Loaded) :=
  match read_csv file with
  | Frame df =>
      let latest_timestamp := index_max df in
      log (CsvLatest latest_timestamp) ;;
      ret (Some (LatestStamp latest_timestamp), Some (Parsed df))
  | TextFrame lines =>
      log CsvLatestText ;;
      ret (Some LatestText, Some (Unparsed lines))
  | FileNotFoundError => log CsvNotFound ;; ret (None, None)
  | OtherError => log CsvReadError ;; ret (None, None)
  end.

(** [df.to_csv(CSV_FILE)] writes to the stored file itself: opening it for
    writing empties it, then the header and the rows follow in order. *)
Definition serialize (df : DataFrame price) : list Line :=
  Header :: map Record_ df.

(** The file after [k] steps of the write: none, the truncation, then one
    line per step.  A cut inside a line leaves that line incomplete on disk;
    the model counts the lines written in full. *)
Definition written (k : nat) (old : File) (df : DataFrame price) : File :=
  match k with
  | O => old
  | S j => Some (firstn j (serialize df))
  end.

(** The write runs to its end ([true]) or is cut short by the fault of the
    environment ([false]: an exception, or the process stopped). *)
Definition to_csv (env : Env) (df : DataFrame price) (file : File) : bool * File :=
  match write_fault env with
  | None => (true, Some (serialize df))
  | Some k =>
      if (k <=? length (serialize df))%nat then (false, written k file df)
      else (true, Some (serialize df))
  end.

(** ** Orchestrator: [update_csv] and [main] *)

Inductive Outcome : Type :=
| Returned (success : bool)
| Raised.

(** The stored frame and the fetched one are combined outside any [try]:
    with a stored time stamp column left as text, [sort_index] has to compare
    that text with the time stamps of the fetched rows and raises; the
    exception leaves [update_csv] before anything is written. *)
Definition update_csv (env : Env) (file : File) : Traced (Outcome * File) :=
  log Banner ;;
  log Starting ;;
  log Banner ;;
  loaded <- get_latest_timestamp_from_csv file ;;
  match snd loaded with
  | None => log CannotProceed ;; ret (Returned false, file)
  | Some df_existing =>
      df_new <- fetch_recent_klines env LIMIT ;;
      match df_new with
      | None => log FetchFailed ;; ret (Returned false, file)
      | Some df_new =>
          if len df_new =? 0 then log FetchFailed ;; ret (Returned false, file)
          else
            match df_existing with
            | Unparsed _ => ret (Raised, file)
            | Parsed df_existing =>
                let df_combined := merge df_existing df_new in
                let new_rows := len df_combined - len df_existing in
                if new_rows >? 0 then
                  let (done, file') := to_csv env df_combined file in
                  if done then
                    log Updated ;;
                    log (TotalRows (len df_combined)) ;;
                    log (Earliest (index_min df_combined)) ;;
                    log (Latest (index_max df_combined)) ;;
                    log (NewRows new_rows) ;;
                    ret (Returned true, file')
                  else ret (Raised, file')
                else
                  let (done, file') := to_csv env df_combined file in
                  if done then
                    log Refreshed ;;
                    log (Latest (index_max df_combined)) ;;
                    ret (Returned true, file')
                  else ret (Raised, file')
            end
      end
  end.

(** [main]: the exit status of the process. *)
Definition main (env : Env) (file : File) : Traced (Z * File) :=
  run <- update_csv env file ;;
  match fst run with
  | Returned true => log Completed ;; ret (0, snd run)
  | Returned false => log UpdateFailed ;; ret (1, snd run)
  | Raised => log Unexpected ;; ret (1, snd run)
  end.

End Program.

Arguments Kline raw : clear implicits.
Arguments Response raw : clear implicits.
Arguments Env raw : clear implicits.
Arguments Line price : clear implicits.
Arguments File price : clear implicits.
Arguments ReadResult price : clear implicits.
Arguments Loaded price : clear implicits.

(** ** Sample data: whole-number prices, hours of 2024-01-01 local time *)

Definition flat (p : Z) : Candle Z := mkCandle p p p p p.

(** The [n]-th hour after 2024-01-01 08:00:00 local time, as a row label and
    as the epoch milliseconds and seconds a provider sends for it. *)
Definition hour (n : Z) : Timestamp := civil 2024 1 1 8 0 0 + n * 3600 * NS_PER_S.
Definition hour_ms (n : Z) : Z := epoch_ms 2024 1 1 0 0 0 + n * 3600000.
Definition hour_s (n : Z) : Z := hour_ms n / 1000.

Definition sample_existing : DataFrame Z :=
  [ (hour 0, flat 10); (hour 1, flat 11); (hour 2, flat 12) ].

Definition sample_new : DataFrame Z :=
  [ (hour 2, flat 99); (hour 3, flat 13); (hour 4, flat 14) ].

(** A stored table that already holds every fetched hour. *)
Definition sample_complete : DataFrame Z :=
  [ (hour 0, flat 10); (hour 1, flat 11); (hour 2, flat 12);
    (hour 3, flat 12); (hour 4, flat 12) ].

(** A stored table with repeated time stamps, out of order. *)
Definition sample_repeated : DataFrame Z :=
  [ (hour 2, flat 1); (hour 2, flat 2); (hour 3, flat 3);
    (hour 3, flat 4); (hour 1, flat 5); (hour 1, flat 6) ].

(** The same three candles as the providers deliver them: newest first with
    text time stamps in milliseconds, or oldest first in seconds. *)
Definition sample_klines_ms : list (Kline Z) :=
  [ mkKline (Some (hour_ms 4)) (flat 14);
    mkKline (Some (hour_ms 3)) (flat 13);
    mkKline (Some (hour_ms 2)) (flat 99) ].

Definition sample_klines_s : list (Kline Z) :=
  [ mkKline (Some (hour_s 2)) (flat 99);
    mkKline (Some (hour_s 3)) (flat 13);
    mkKline (Some (hour_s 4)) (flat 14) ].

Definition sample_network (api : Api) : Response Z :=
  match api with
  | Bybit => Envelope true sample_klines_ms
  | _ => Unavailable
  end.

Definition sample_network_fallback (api : Api) : Response Z :=
  match api with
  | Bybit => Unavailable
  | OKX => Envelope false []
  | CryptoCompare => Envelope true sample_klines_s
  end.

Definition sample_env : Env Z := mkEnv sample_network None.
Definition sample_env_fallback : Env Z := mkEnv sample_network_fallback None.

(** The write stops right after the file was opened for writing. *)
Definition sample_env_cut : Env Z := mkEnv sample_network (Some 1%nat).

Definition sample_file : File Z := Some (serialize sample_existing).

Definition keep (x : Z) : Z := x.

(** A stored file with one row whose time stamp cell is no date. *)
Definition sample_file_text : File Z :=
  Some [ Header; Record_ (hour 0, flat 10); TextRecord "n/a" (flat 11) ].

(** A fetch in which one record came with a null time, as a frame of
    labels, and a stored table with repeated time stamps and a blank time
    stamp cell. *)
Definition sample_new_missing : AnyFrame Z :=
  [ (Stamp (hour 3), flat 13); (NaT, flat 7) ].

(** A stored table whose time stamp column was left as text. *)
Definition sample_stored_text : AnyFrame Z :=
  [ (Text "2024-01-01 08:00:00", flat 10); (Text "n/a", flat 11) ].

Definition sample_repeated_missing : AnyFrame Z :=
  [ (Stamp (hour 2), flat 1); (Stamp (hour 2), flat 2);
    (NaT, flat 3); (Stamp (hour 1), flat 5) ].

(** The requests of a trace, with the limit each one carries. *)
Definition is_request (e : Event) : bool :=
  match e with
  | Request _ _ => true
  | Log _ => false
  end.

(** The stored sample table in another row order, a fetch of later hours
    only, and a fetch that repeats stored rows. *)
Definition sample_shuffled : DataFrame Z :=
  [ (hour 2, flat 12); (hour 0, flat 10); (hour 1, flat 11) ].

Definition sample_later : DataFrame Z :=
  [ (hour 3, flat 13); (hour 4, flat 14) ].

Definition sample_stored_again : DataFrame Z :=
  [ (hour 1, flat 11); (hour 2, flat 12) ].


Section FrameFacts.
Context {price : Type}.
Implicit Types (df df_existing df_new : DataFrame price).
Implicit Types (r : Row price) (ts : Timestamp).

Lemma select_rows_duplicated df :
  select_rows (invert (duplicated_last (index df))) df = drop_duplicates_last df.
Proof.
  induction df as [|r rs IH]; simpl; [reflexivity|].
  rewrite IH. now destruct (existsb (Z.eqb (fst r)) (index rs)).
Qed.

Lemma existsb_index ts df :
  existsb (Z.eqb ts) (index df) = true <-> In ts (index df).
Proof.
  rewrite existsb_exists. split.
  - intros [x [Hin Heq]]. apply Z.eqb_eq in Heq. now subst.
  - intros Hin. exists ts. split; [assumption|apply Z.eqb_refl].
Qed.

Lemma last_at_fst ts df r : last_at ts df = Some r -> fst r = ts.
Proof.
  induction df as [|x xs IH]; simpl; [discriminate|].
  destruct (last_at ts xs) as [y|].
  - intros [= <-]. now apply IH.
  - destruct (fst x =? ts) eqn:E; [|discriminate].
    intros [= <-]. now apply Z.eqb_eq.
Qed.

Lemma last_at_In ts df r : last_at ts df = Some r -> In r df.
Proof.
  induction df as [|x xs IH]; simpl; [discriminate|].
  destruct (last_at ts xs) as [y|].
  - intros [= <-]. right. now apply IH.
  - destruct (fst x =? ts); [|discriminate]. intros [= <-]. now left.
Qed.

Lemma last_at_None ts df : last_at ts df = None <-> ~ In ts (index df).
Proof.
  induction df as [|x xs IH]; simpl.
  - split; [intros _ []|reflexivity].
  - destruct (last_at ts xs) as [y|] eqn:E.
    + split; [discriminate|]. intros H. exfalso. apply H. right.
      destruct (in_dec Z.eq_dec ts (index xs)) as [Hin|Hout]; [assumption|].
      apply IH in Hout. discriminate.
    + destruct (fst x =? ts) eqn:Ex.
      * apply Z.eqb_eq in Ex. split; [discriminate|]. intros H. exfalso. apply H. now left.
      * apply Z.eqb_neq in Ex. split; [|reflexivity].
        intros _ [H|H]; [contradiction|]. now apply (proj1 IH).
Qed.

Lemma last_at_app ts df1 df2 :
  last_at ts (df1 ++ df2) =
  match last_at ts df2 with Some x => Some x | None => last_at ts df1 end.
Proof.
  induction df1 as [|x xs IH]; simpl.
  - now destruct (last_at ts df2).
  - rewrite IH. now destruct (last_at ts df2).
Qed.

(** A row survives the keep-last deduplication exactly when it is the last
    row of its label. *)
Lemma In_drop_duplicates_last df r :
  In r (drop_duplicates_last df) <-> last_at (fst r) df = Some r.
Proof.
  induction df as [|x xs IH]; simpl.
  - split; [intros []|discriminate].
  - destruct (existsb (Z.eqb (fst x)) (index xs)) eqn:E.
    + rewrite IH. destruct (last_at (fst r) xs) as [y|] eqn:L; [reflexivity|].
      split; [discriminate|].
      destruct (fst x =? fst r) eqn:Ex; [|discriminate].
      apply Z.eqb_eq in Ex. apply existsb_index in E. rewrite Ex in E.
      apply last_at_None in L. contradiction.
    + assert (Hx : ~ In (fst x) (index xs)).
      { intros H. apply existsb_index in H. congruence. }
      simpl. rewrite IH. split.
      * intros [<-|H].
        -- apply last_at_None in Hx. rewrite Hx. now rewrite Z.eqb_refl.
        -- now rewrite H.
      * destruct (last_at (fst r) xs) as [y|]; [intros [= ->]; now right|].
        destruct (fst x =? fst r); [|discriminate]. intros [= ->]. now left.
Qed.

Lemma NoDup_drop_duplicates_last df : NoDup (index (drop_duplicates_last df)).
Proof.
  induction df as [|x xs IH]; simpl; [constructor|].
  destruct (existsb (Z.eqb (fst x)) (index xs)) eqn:E; [assumption|].
  simpl. constructor; [|assumption].
  intros H. apply in_map_iff in H. destruct H as [r [Hr Hin]].
  apply In_drop_duplicates_last in Hin. apply last_at_In in Hin.
  assert (In (fst x) (index xs)) by (rewrite <- Hr; now apply in_map).
  apply existsb_index in H. congruence.
Qed.

(** *** Sorting *)

Lemma insert_row_perm r df : Permutation (insert_row r df) (r :: df).
Proof.
  induction df as [|x xs IH]; simpl; [reflexivity|].
  destruct (fst r <=? fst x); [reflexivity|].
  rewrite IH. apply perm_swap.
Qed.

Lemma sort_index_perm df : Permutation (sort_index df) df.
Proof.
  induction df as [|x xs IH]; simpl; [reflexivity|].
  rewrite insert_row_perm. now apply perm_skip.
Qed.

Lemma In_sort_index r df : In r (sort_index df) <-> In r df.
Proof.
  split; apply Permutation_in; [|symmetry]; apply sort_index_perm.
Qed.

Lemma insert_row_le r df :
  StronglySorted row_le df -> StronglySorted row_le (insert_row r df).
Proof.
  induction 1 as [|x xs Hs IH Hall]; simpl.
  - repeat constructor.
  - destruct (fst r <=? fst x) eqn:E.
    + apply Z.leb_le in E. constructor; [now constructor|].
      constructor; [exact E|].
      eapply Forall_impl; [|exact Hall]. unfold row_le. intros; lia.
    + apply Z.leb_gt in E. constructor; [exact IH|].
      eapply Permutation_Forall; [symmetry; apply insert_row_perm|].
      constructor; [unfold row_le; lia|exact Hall].
Qed.

Lemma sort_index_le df : StronglySorted row_le (sort_index df).
Proof.
  induction df as [|x xs IH]; simpl; [constructor|now apply insert_row_le].
Qed.

Lemma le_NoDup_lt df :
  StronglySorted row_le df -> NoDup (index df) -> StronglySorted row_lt df.
Proof.
  induction 1 as [|x xs Hs IH Hall]; simpl; intros Hnd; [constructor|].
  inversion Hnd as [|? ? Hx Hnd']; subst.
  constructor; [now apply IH|].
  rewrite Forall_forall in Hall |- *. intros y Hy.
  specialize (Hall y Hy). unfold row_le in Hall. unfold row_lt.
  assert (fst x <> fst y).
  { intros Heq. apply Hx. rewrite Heq. now apply in_map. }
  lia.
Qed.

Lemma lt_NoDup df : StronglySorted row_lt df -> NoDup (index df).
Proof.
  induction 1 as [|x xs Hs IH Hall]; simpl; constructor; [|assumption].
  intros Hin. apply in_map_iff in Hin. destruct Hin as [y [Hy Hin]].
  rewrite Forall_forall in Hall. specialize (Hall y Hin).
  unfold row_lt in Hall. lia.
Qed.

Lemma lt_le df : StronglySorted row_lt df -> StronglySorted row_le df.
Proof.
  induction 1 as [|x xs Hs IH Hall]; constructor; [assumption|].
  eapply Forall_impl; [|exact Hall]. unfold row_lt, row_le. intros; lia.
Qed.

Lemma increasing_lt df :
  increasing (index df) = true <-> StronglySorted row_lt df.
Proof.
  split.
  - intros H. apply Sorted_StronglySorted.
    { intros a b c. unfold row_lt. lia. }
    induction df as [|x xs IH]; [constructor|].
    destruct xs as [|y ys]; [repeat constructor|].
    simpl in H. apply andb_prop in H. destruct H as [Hxy Hrest].
    constructor; [now apply IH|].
    constructor. now apply Z.ltb_lt.
  - intros H. apply StronglySorted_Sorted in H.
    induction H as [|x xs Hs IH Hhd]; [reflexivity|].
    destruct xs as [|y ys]; [reflexivity|].
    simpl. inversion Hhd as [|? ? Hxy]; subst.
    apply andb_true_intro. split; [now apply Z.ltb_lt|exact IH].
Qed.

Lemma sort_index_sorted df : StronglySorted row_le df -> sort_index df = df.
Proof.
  induction 1 as [|x xs Hs IH Hall]; simpl; [reflexivity|].
  rewrite IH. destruct xs as [|y ys]; [reflexivity|].
  simpl. inversion Hall as [|? ? Hxy _]; subst.
  unfold row_le in Hxy. apply Z.leb_le in Hxy. now rewrite Hxy.
Qed.

Lemma drop_duplicates_last_unique df :
  NoDup (index df) -> drop_duplicates_last df = df.
Proof.
  induction df as [|x xs IH]; simpl; [reflexivity|].
  intros Hnd. inversion Hnd as [|? ? Hx Hnd']; subst.
  destruct (existsb (Z.eqb (fst x)) (index xs)) eqn:E.
  - apply existsb_index in E. contradiction.
  - now rewrite IH.
Qed.

(** Two tables in strictly increasing order with the same rows are the
    same table. *)
Lemma lt_ext df1 : forall df2,
  StronglySorted row_lt df1 -> StronglySorted row_lt df2 ->
  (forall r, In r df1 <-> In r df2) -> df1 = df2.
Proof.
  induction df1 as [|x xs IH]; intros [|y ys] H1 H2 Hiff.
  - reflexivity.
  - exfalso. apply (proj2 (Hiff y)). now left.
  - exfalso. apply (proj1 (Hiff x)). now left.
  - inversion H1 as [|? ? Hs1 Hall1]; subst.
    inversion H2 as [|? ? Hs2 Hall2]; subst.
    rewrite Forall_forall in Hall1, Hall2. unfold row_lt in Hall1, Hall2.
    assert (Hxy : x = y).
    { destruct (proj1 (Hiff x) (or_introl eq_refl)) as [Hx|Hx]; [now symmetry|].
      destruct (proj2 (Hiff y) (or_introl eq_refl)) as [Hy|Hy]; [assumption|].
      specialize (Hall1 y Hy). specialize (Hall2 x Hx). lia. }
    subst y. f_equal. apply IH; try assumption.
    intros r. split; intros Hr.
    + destruct (proj1 (Hiff r) (or_intror Hr)) as [Heq|Hin]; [|assumption].
      subst r. specialize (Hall1 x Hr). lia.
    + destruct (proj2 (Hiff r) (or_intror Hr)) as [Heq|Hin]; [|assumption].
      subst r. specialize (Hall2 x Hr). lia.
Qed.

(** On a frame without repeated labels every sorting algorithm returns what
    [sort_index] returns: the ascending arrangement of its rows is unique. *)
Lemma sort_index_canonical df df' :
  NoDup (index df) ->
  Permutation df' df ->
  StronglySorted row_le df' ->
  df' = sort_index df.
Proof.
  intros Hnd Hperm Hsorted.
  apply lt_ext.
  - apply le_NoDup_lt; [exact Hsorted|].
    eapply Permutation_NoDup; [|exact Hnd].
    symmetry. now apply Permutation_map.
  - apply le_NoDup_lt; [apply sort_index_le|].
    eapply Permutation_NoDup; [|exact Hnd].
    symmetry. apply Permutation_map, sort_index_perm.
  - intros r. rewrite In_sort_index. split; apply Permutation_in;
      [exact Hperm|symmetry; exact Hperm].
Qed.

(** *** The merged table *)

Lemma merge_unfold df_existing df_new :
  merge df_existing df_new =
  sort_index (drop_duplicates_last (df_existing ++ df_new)).
Proof.
  unfold merge, concat. now rewrite select_rows_duplicated.
Qed.

Lemma merge_lt df_existing df_new :
  StronglySorted row_lt (merge df_existing df_new).
Proof.
  rewrite merge_unfold. apply le_NoDup_lt; [apply sort_index_le|].
  eapply Permutation_NoDup.
  - symmetry. apply Permutation_map. apply sort_index_perm.
  - apply NoDup_drop_duplicates_last.
Qed.

Lemma In_merge df_existing df_new r :
  In r (merge df_existing df_new) <->
  last_at (fst r) (df_existing ++ df_new) = Some r.
Proof.
  rewrite merge_unfold, In_sort_index. apply In_drop_duplicates_last.
Qed.

(** In a table without repeated labels the rows at a label are at most the
    one found by [last_at]. *)
Lemma loc_unique ts df :
  NoDup (index df) ->
  loc ts df = match last_at ts df with Some r => [r] | None => [] end.
Proof.
  unfold loc. induction df as [|x xs IH]; simpl; [reflexivity|].
  intros Hnd. inversion Hnd as [|? ? Hx Hnd']; subst.
  rewrite (IH Hnd'). destruct (Z.eqb_spec (fst x) ts) as [E|E].
  - subst ts. apply last_at_None in Hx. now rewrite Hx.
  - now destruct (last_at ts xs).
Qed.

Lemma last_at_unique ts df r :
  NoDup (index df) -> In r df -> fst r = ts -> last_at ts df = Some r.
Proof.
  induction df as [|x xs IH]; simpl; [intros _ []|].
  intros Hnd Hin Hts. inversion Hnd as [|? ? Hx Hnd']; subst.
  destruct Hin as [->|Hin].
  - apply last_at_None in Hx. now rewrite Hx, Z.eqb_refl.
  - now rewrite (IH Hnd' Hin eq_refl).
Qed.

Lemma last_at_merge ts df_existing df_new :
  last_at ts (merge df_existing df_new) = last_at ts (df_existing ++ df_new).
Proof.
  pose proof (lt_NoDup _ (merge_lt df_existing df_new)) as Hnd.
  destruct (last_at ts (df_existing ++ df_new)) as [r|] eqn:L.
  - apply last_at_unique; [assumption| |now apply last_at_fst in L].
    apply In_merge. apply last_at_fst in L as Hr. now rewrite Hr.
  - destruct (last_at ts (merge df_existing df_new)) as [r|] eqn:M; [|reflexivity].
    apply last_at_fst in M as Hr. apply last_at_In in M.
    apply In_merge in M. rewrite Hr in M. congruence.
Qed.

Lemma last_at_loc ts df r :
  last_at ts df = Some r -> exists before, loc ts df = before ++ [r].
Proof.
  unfold loc. induction df as [|x xs IH]; simpl; [discriminate|].
  destruct (last_at ts xs) as [y|] eqn:L.
  - intros [= ->]. destruct (IH eq_refl) as [before Hb]. rewrite Hb.
    destruct (fst x =? ts); [exists (x :: before)|exists before]; reflexivity.
  - destruct (Z.eqb_spec (fst x) ts) as [E|E]; [|discriminate].
    intros [= ->]. exists []. simpl. f_equal.
    apply last_at_None in L. clear IH.
    induction xs as [|y ys IHy]; simpl; [reflexivity|].
    destruct (Z.eqb_spec (fst y) ts) as [Ey|Ey].
    + exfalso. apply L. left. exact Ey.
    + apply IHy. intros H. apply L. now right.
Qed.

Lemma increasing_adjacent (idx : list Timestamp) :
  increasing idx = true ->
  forall i a b, nth_error idx i = Some a -> nth_error idx (S i) = Some b -> a < b.
Proof.
  induction idx as [|x xs IH]; intros H i a b Ha Hb.
  - destruct i; discriminate.
  - destruct xs as [|y ys]; [destruct i; discriminate|].
    simpl in H. apply andb_prop in H. destruct H as [Hxy Hrest].
    destruct i as [|i].
    + simpl in Ha, Hb. injection Ha as <-. injection Hb as <-. now apply Z.ltb_lt.
    + apply (IH Hrest i a b); assumption.
Qed.

(** ** The reconciler *)

(** C1. Keep-last merge: for a time stamp present in the stored table and
    in the fetched rows, the merged table holds exactly one row at that
    time stamp, and it is the fetched one (the last fetched row of that
    time stamp), whatever the stored row was. *)
Theorem merge_keep_last df_existing df_new ts :
  In ts (index df_existing) ->
  In ts (index df_new) ->
  exists r before,
    loc ts df_new = before ++ [r] /\
    loc ts (merge df_existing df_new) = [r].
Proof.
  intros _ Hnew.
  destruct (last_at ts df_new) as [r|] eqn:L.
  - destruct (last_at_loc _ _ _ L) as [before Hb].
    exists r, before. split; [exact Hb|].
    rewrite loc_unique by (apply lt_NoDup, merge_lt).
    now rewrite last_at_merge, last_at_app, L.
  - apply last_at_None in L. contradiction.
Qed.

(** C2. Idempotence: merging the same fetched rows a second time leaves the
    merged table as it is. *)
Theorem merge_idempotent df_existing df_new :
  merge (merge df_existing df_new) df_new = merge df_existing df_new.
Proof.
  apply lt_ext; try apply merge_lt.
  intros r. rewrite !In_merge, !last_at_app, last_at_merge, last_at_app.
  now destruct (last_at (fst r) df_new).
Qed.

(** C6. Empty incoming: on a table whose time stamps are strictly
    increasing, merging no rows returns the table unchanged. *)
Theorem merge_empty_incoming df_existing :
  table_invariant df_existing ->
  merge df_existing [] = df_existing.
Proof.
  intros H. apply increasing_lt in H.
  rewrite merge_unfold, app_nil_r.
  rewrite drop_duplicates_last_unique by now apply lt_NoDup.
  apply sort_index_sorted. now apply lt_le.
Qed.

End FrameFacts.

Section ProgramFacts.
Context {raw price : Type} (to_numeric : raw -> price).
Implicit Types (env : Env raw) (file : File price) (limit : Z).
Implicit Types (df df_existing df_new : DataFrame price).

(** *** Traces *)

Lemma fst_bind {A B} (c : Traced A) (k : A -> Traced B) :
  fst (bind c k) = fst (k (fst c)).
Proof. unfold bind. now destruct (k (fst c)). Qed.

Lemma snd_bind {A B} (c : Traced A) (k : A -> Traced B) :
  snd (bind c k) = snd c ++ snd (k (fst c)).
Proof. unfold bind. now destruct (k (fst c)). Qed.

Lemma requests_app t1 t2 : requests (t1 ++ t2) = requests t1 ++ requests t2.
Proof.
  induction t1 as [|[api limit|m] t1 IH]; simpl; [reflexivity| |assumption].
  now rewrite IH.
Qed.

(** Each adapter sends exactly one request, to its own provider. *)
Lemma adapter_requests api cast unit_ns env limit :
  requests (snd (adapter to_numeric api cast unit_ns env limit)) = [api].
Proof.
  unfold adapter. rewrite !snd_bind, !requests_app. cbv beta. simpl.
  f_equal. destruct (network env api) as [|success klines]; [reflexivity|].
  destruct success; [|reflexivity]. destruct klines as [|k ks]; [reflexivity|].
  now destruct (traverse _ _).
Qed.

Lemma try_apis_cons name fetch_func env limit
      (rest : list (Api * (Env raw -> Z -> Traced (option (DataFrame price))))) :
  try_apis ((name, fetch_func) :: rest) env limit =
  bind (fetch_func env limit) (fun answer =>
    if usable answer then bind (log (FetchedFrom name)) (fun _ => ret answer)
    else try_apis rest env limit).
Proof. reflexivity. Qed.

Ltac traced := rewrite ?fst_bind, ?snd_bind, ?requests_app; cbv beta iota.

(** ** The fallback fetcher *)

(** C4. Fallback order: the providers are asked in the order Bybit, OKX,
    CryptoCompare.  A non-empty answer of the first is returned without
    asking the others; when the first two give nothing usable, a non-empty
    answer of the third is returned; when none gives a usable answer the
    fetch returns no result, after all three were asked once. *)
Theorem fallback_order env limit :
  let first := fst (fetch_from_bybit to_numeric env limit) in
  let second := fst (fetch_from_okx to_numeric env limit) in
  let third := fst (fetch_from_cryptocompare to_numeric env limit) in
  let run := fetch_recent_klines to_numeric env limit in
  (usable first = true ->
     fst run = first /\ requests (snd run) = [Bybit]) /\
  (usable first = false -> usable second = true ->
     fst run = second /\ requests (snd run) = [Bybit; OKX]) /\
  (usable first = false -> usable second = false -> usable third = true ->
     fst run = third /\ requests (snd run) = [Bybit; OKX; CryptoCompare]) /\
  (usable first = false -> usable second = false -> usable third = false ->
     fst run = None /\ requests (snd run) = [Bybit; OKX; CryptoCompare] /\
     In (Log AllApisFailed) (snd run)).
Proof.
  intros first second third run. subst first second third run.
  unfold fetch_recent_klines, apis. rewrite !try_apis_cons.
  unfold fetch_from_bybit, fetch_from_okx, fetch_from_cryptocompare.
  split; [intros H1|split; [intros H1 H2|split; intros H1 H2 H3]].
  - split; traced; rewrite H1; traced; [reflexivity|].
    now rewrite adapter_requests.
  - split; traced; rewrite H1; traced; rewrite H2; traced; [reflexivity|].
    now rewrite !adapter_requests.
  - split; traced; rewrite H1; traced; rewrite H2; traced; rewrite H3;
      traced; [reflexivity|].
    now rewrite !adapter_requests.
  - repeat split; traced; rewrite H1; traced; rewrite H2; traced; rewrite H3;
      traced.
    + reflexivity.
    + now rewrite !adapter_requests.
    + do 4 (apply in_or_app; right). apply in_or_app. left. now left.
Qed.

Lemma try_apis_usable env limit df
      (l : list (Api * (Env raw -> Z -> Traced (option (DataFrame price))))) :
  fst (try_apis l env limit) = Some df -> len df > 0.
Proof.
  induction l as [|[name fetch_func] rest IH].
  - simpl. discriminate.
  - rewrite try_apis_cons. traced.
    destruct (usable (fst (fetch_func env limit))) eqn:U; [|exact IH].
    traced. simpl. intros E. rewrite E in U. simpl in U. lia.
Qed.

Lemma fetch_recent_klines_usable env limit df :
  fst (fetch_recent_klines to_numeric env limit) = Some df -> len df > 0.
Proof.
  unfold fetch_recent_klines. traced. apply try_apis_usable.
Qed.

(** *** Store *)

Lemma traverse_parse_line df : traverse parse_line (map Record_ df) = Some df.
Proof.
  induction df as [|r rs IH]; simpl; [reflexivity|]. now rewrite IH.
Qed.

Lemma no_malformed_record df : existsb is_malformed (map Record_ df) = false.
Proof.
  induction df as [|r rs IH]; simpl; [reflexivity|exact IH].
Qed.

Lemma read_csv_serialize df : read_csv (Some (serialize df)) = Frame df.
Proof. simpl. now rewrite no_malformed_record, traverse_parse_line. Qed.

Lemma to_csv_done env df file :
  fst (to_csv env df file) = true ->
  snd (to_csv env df file) = Some (serialize df).
Proof.
  unfold to_csv. destruct (write_fault env) as [k|]; [|reflexivity].
  destruct (k <=? length (serialize df))%nat; [discriminate|reflexivity].
Qed.

(** *** One run, once the table is loaded and a provider has answered *)

Lemma update_csv_run env file df_existing df_new :
  read_csv file = Frame df_existing ->
  fst (fetch_recent_klines to_numeric env LIMIT) = Some df_new ->
  fst (update_csv to_numeric env file) =
  (if fst (to_csv env (merge df_existing df_new) file)
   then Returned true else Raised,
   snd (to_csv env (merge df_existing df_new) file)).
Proof.
  intros Hread Hfetch.
  pose proof (fetch_recent_klines_usable _ _ _ Hfetch) as Hlen.
  unfold update_csv, get_latest_timestamp_from_csv. rewrite Hread.
  traced. simpl snd. cbv beta iota. traced. rewrite Hfetch. cbv beta iota.
  destruct (Z.eqb_spec (len df_new) 0) as [E|_]; [lia|].
  destruct (to_csv env (merge df_existing df_new) file) as [done file'].
  destruct (len (merge df_existing df_new) - len df_existing >? 0);
    destruct done; traced; reflexivity.
Qed.

Lemma update_csv_report env file df_existing df_new :
  read_csv file = Frame df_existing ->
  fst (fetch_recent_klines to_numeric env LIMIT) = Some df_new ->
  fst (to_csv env (merge df_existing df_new) file) = true ->
  let new_rows := len (merge df_existing df_new) - len df_existing in
  In (Log (if new_rows >? 0 then NewRows new_rows else Refreshed))
     (snd (update_csv to_numeric env file)).
Proof.
  intros Hread Hfetch Hdone new_rows. subst new_rows.
  pose proof (fetch_recent_klines_usable _ _ _ Hfetch) as Hlen.
  unfold update_csv, get_latest_timestamp_from_csv. rewrite Hread.
  traced. simpl snd. cbv beta iota. traced. rewrite Hfetch. cbv beta iota.
  destruct (Z.eqb_spec (len df_new) 0) as [E|_]; [lia|].
  destruct (to_csv env (merge df_existing df_new) file) as [done file'].
  simpl in Hdone. subst done.
  do 5 (apply in_or_app; right).
  destruct (len (merge df_existing df_new) - len df_existing >? 0);
    traced; simpl; tauto.
Qed.

(** ** The orchestrator *)

(** C5. After a successful load, fetch and merge the run writes the merged
    table and returns success, whether or not rows were added; the count
    [len(result) - len(existing)] only selects the reported line. *)
Theorem update_always_persists env file df_existing df_new :
  read_csv file = Frame df_existing ->
  fst (fetch_recent_klines to_numeric env LIMIT) = Some df_new ->
  fst (to_csv env (merge df_existing df_new) file) = true ->
  let df_combined := merge df_existing df_new in
  let new_rows := len df_combined - len df_existing in
  fst (update_csv to_numeric env file) =
    (Returned true, Some (serialize df_combined)) /\
  In (Log (if new_rows >? 0 then NewRows new_rows else Refreshed))
     (snd (update_csv to_numeric env file)).
Proof.
  intros Hread Hfetch Hdone df_combined new_rows. split.
  - rewrite (update_csv_run _ _ _ _ Hread Hfetch).
    rewrite (to_csv_done _ _ _ Hdone). fold df_combined.
    unfold df_combined at 1. now rewrite Hdone.
  - now apply update_csv_report.
Qed.

(** C7, as the code has it.  The table is written over the stored file in
    place.  A write that runs to its end leaves the complete merged table,
    which reads back as that table.  A write cut short before it began
    leaves the stored file; cut short later it leaves a proper initial part
    of the new lines in place of the stored copy, and the run does not
    return. *)
Theorem save_overwrites_in_place env file df_existing df_new :
  read_csv file = Frame df_existing ->
  fst (fetch_recent_klines to_numeric env LIMIT) = Some df_new ->
  let df_combined := merge df_existing df_new in
  let run := fst (update_csv to_numeric env file) in
  (fst (to_csv env df_combined file) = true ->
     run = (Returned true, Some (serialize df_combined)) /\
     read_csv (snd run) = Frame df_combined) /\
  (forall k, write_fault env = Some k ->
     (k <= length (serialize df_combined))%nat ->
     fst run = Raised /\
     (k = O -> snd run = file) /\
     (k <> O -> exists lines rest,
        snd run = Some lines /\ rest <> [] /\
        serialize df_combined = lines ++ rest)).
Proof.
  intros Hread Hfetch df_combined run. subst run.
  rewrite (update_csv_run _ _ _ _ Hread Hfetch). fold df_combined. split.
  - intros Hdone. rewrite (to_csv_done _ _ _ Hdone), Hdone. split; [reflexivity|].
    apply read_csv_serialize.
  - intros k Hk Hle. unfold to_csv. rewrite Hk.
    apply Nat.leb_le in Hle as Hb. rewrite Hb. cbn [fst snd].
    split; [reflexivity|]. split.
    + intros ->. reflexivity.
    + intros Hpos. destruct k as [|j]; [contradiction|].
      exists (firstn j (serialize df_combined)), (skipn j (serialize df_combined)).
      split; [reflexivity|]. split.
      * intros Hnil. apply (f_equal (@length _)) in Hnil.
        rewrite length_skipn in Hnil.
        change (length (@nil (Line price))) with O in Hnil. lia.
      * symmetry. apply firstn_skipn.
Qed.

(** C8, as the code has it.  An absent file, and a file at which
    [pd.read_csv] raises any other exception (an empty file, a first line
    that does not name the time stamp column, a line with too many fields),
    make [get_latest_timestamp_from_csv] return the same pair of [None]s;
    the two cases differ in the logged line only, and [update_csv] returns
    failure in both without asking any provider. *)
Theorem load_failures_same_value env file_absent file_corrupt :
  read_csv file_absent = FileNotFoundError ->
  read_csv file_corrupt = OtherError ->
  get_latest_timestamp_from_csv file_absent = ((None, None), [Log CsvNotFound]) /\
  get_latest_timestamp_from_csv file_corrupt = ((None, None), [Log CsvReadError]) /\
  fst (update_csv to_numeric env file_absent) = (Returned false, file_absent) /\
  fst (update_csv to_numeric env file_corrupt) = (Returned false, file_corrupt) /\
  requests (snd (update_csv to_numeric env file_absent)) = [] /\
  requests (snd (update_csv to_numeric env file_corrupt)) = [].
Proof.
  intros Habsent Hcorrupt.
  unfold update_csv, get_latest_timestamp_from_csv.
  rewrite Habsent, Hcorrupt. repeat split.
Qed.

End ProgramFacts.

Section TimestampFacts.
Context {raw price : Type} (to_numeric : raw -> price).

(** From 1981-12-31 16:00 UTC on, Singapore time is UTC+8. *)
Lemma singapore_utcoffset_plus8 utc_s :
  378662400 <= utc_s -> singapore_utcoffset utc_s = 28800.
Proof.
  intros H. unfold singapore_utcoffset, SINGAPORE_TRANSITIONS, offset_at.
  repeat match goal with
         | |- context [?a <=? utc_s] => destruct (Z.leb_spec a utc_s)
         end; lia.
Qed.

Lemma convert_timestamp_plus8 unit_ns x :
  378662400 * NS_PER_S <= x * unit_ns ->
  x * unit_ns + 8 * 3600 * NS_PER_S <= TIMESTAMP_MAX ->
  convert_timestamp unit_ns x = Some (x * unit_ns + 8 * 3600 * NS_PER_S).
Proof.
  intros Hlo Hhi. unfold convert_timestamp, to_datetime.
  unfold NS_PER_S, TIMESTAMP_MAX in *.
  assert (Hmin : (TIMESTAMP_MIN <=? x * unit_ns) = true)
    by (apply Z.leb_le; unfold TIMESTAMP_MIN; lia).
  assert (Hmax : (x * unit_ns <=? 9223372036854775807) = true)
    by (apply Z.leb_le; lia).
  unfold TIMESTAMP_MAX. rewrite Hmin, Hmax. simpl andb. cbv iota. simpl option_map.
  unfold tz_convert_localize, NS_PER_S.
  rewrite singapore_utcoffset_plus8; [f_equal|].
  apply Z.div_le_lower_bound; lia.
Qed.

(** X18.  A provider time stamp (epoch milliseconds for Bybit and OKX,
    epoch seconds for CryptoCompare) at or after 1981-12-31 16:00:00 UTC, and
    within the range of the time stamp type, becomes the naive local time
    eight hours ahead of UTC; the epoch milliseconds of 2024-01-01 00:00:00
    UTC become 2024-01-01 08:00:00, and that is the index label of the
    adapter's row. *)
Theorem timestamp_conversion :
  (forall ms,
     epoch_ms 1981 12 31 16 0 0 <= ms ->
     ms * NS_PER_MS + 8 * 3600 * NS_PER_S <= TIMESTAMP_MAX ->
     convert_timestamp NS_PER_MS ms = Some (ms * NS_PER_MS + 8 * 3600 * NS_PER_S)) /\
  (forall s,
     epoch_ms 1981 12 31 16 0 0 / 1000 <= s ->
     s * NS_PER_S + 8 * 3600 * NS_PER_S <= TIMESTAMP_MAX ->
     convert_timestamp NS_PER_S s = Some (s * NS_PER_S + 8 * 3600 * NS_PER_S)) /\
  epoch_ms 2024 1 1 0 0 0 = 1704067200000 /\
  convert_timestamp NS_PER_MS (epoch_ms 2024 1 1 0 0 0) = Some (civil 2024 1 1 8 0 0) /\
  (forall c : Candle raw,
     kline_row to_numeric astype_int NS_PER_MS
               (mkKline (Some (epoch_ms 2024 1 1 0 0 0)) c) =
     Some (civil 2024 1 1 8 0 0, coerce to_numeric c)).
Proof.
  split; [|split; [|split; [|split]]].
  - intros ms Hlo Hhi. apply convert_timestamp_plus8; [|exact Hhi].
    change (epoch_ms 1981 12 31 16 0 0) with 378662400000 in Hlo.
    unfold NS_PER_S, NS_PER_MS. lia.
  - intros s Hlo Hhi. apply convert_timestamp_plus8; [|exact Hhi].
    change (epoch_ms 1981 12 31 16 0 0 / 1000) with 378662400 in Hlo.
    unfold NS_PER_S. lia.
  - reflexivity.
  - reflexivity.
  - intros c. reflexivity.
Qed.

End TimestampFacts.

(** ** Checks on sample data *)

(** The overlap scenario: stored hours 0-2, fetched hours 2-4; the merged
    table has the five hours, hour 2 with its fetched values, two rows more
    than before. *)
Example scenario_overlap :
  merge sample_existing sample_new =
    [ (hour 0, flat 10); (hour 1, flat 11); (hour 2, flat 99);
      (hour 3, flat 13); (hour 4, flat 14) ] /\
  len (merge sample_existing sample_new) - len sample_existing = 2.
Proof. split; reflexivity. Qed.

(** The sample provider answers with the sample rows, oldest first. *)
Example scenario_fetch :
  fst (fetch_recent_klines keep sample_env LIMIT) = Some sample_new /\
  fst (fetch_recent_klines keep sample_env_fallback LIMIT) = Some sample_new.
Proof. split; reflexivity. Qed.

(** All providers failing: the run fails and the stored file is untouched. *)
Example scenario_all_fail :
  fst (update_csv keep (mkEnv (fun _ => Unavailable) None) sample_file) =
    (Returned false, sample_file).
Proof. reflexivity. Qed.

(** A stored row whose time stamp is no date: the table is loaded, Bybit is
    asked, the run raises and the stored file is untouched; [main] exits
    with status 1. *)
Example scenario_text_stamp :
  fst (update_csv keep sample_env sample_file_text) = (Raised, sample_file_text) /\
  requests (snd (update_csv keep sample_env sample_file_text)) = [Bybit] /\
  fst (main keep sample_env sample_file_text) = (1, sample_file_text).
Proof. repeat split. Qed.

(** The full run on the sample: exit status 0, the merged table stored. *)
Example scenario_main :
  fst (main keep sample_env sample_file) =
    (0, Some (serialize (merge sample_existing sample_new))).
Proof. reflexivity. Qed.

(** ** The theorems at the sample data *)

Lemma merge_keep_last_witness :
  In (hour 2) (index sample_existing) /\
  In (hour 2) (index sample_new) /\
  exists r before,
    loc (hour 2) sample_new = before ++ [r] /\
    loc (hour 2) (merge sample_existing sample_new) = [r].
Proof.
  assert (H1 : In (hour 2) (index sample_existing))
    by (right; right; left; reflexivity).
  assert (H2 : In (hour 2) (index sample_new)) by (left; reflexivity).
  split; [exact H1|]. split; [exact H2|].
  exact (merge_keep_last sample_existing sample_new (hour 2) H1 H2).
Defined.


Lemma merge_empty_incoming_witness :
  table_invariant sample_existing /\ merge sample_existing [] = sample_existing.
Proof.
  assert (H : table_invariant sample_existing) by reflexivity.
  split; [exact H|]. exact (merge_empty_incoming sample_existing H).
Defined.

Lemma fallback_order_witness :
  usable (fst (fetch_from_bybit keep sample_env_fallback LIMIT)) = false /\
  usable (fst (fetch_from_okx keep sample_env_fallback LIMIT)) = false /\
  usable (fst (fetch_from_cryptocompare keep sample_env_fallback LIMIT)) = true /\
  fst (fetch_recent_klines keep sample_env_fallback LIMIT) =
    fst (fetch_from_cryptocompare keep sample_env_fallback LIMIT) /\
  requests (snd (fetch_recent_klines keep sample_env_fallback LIMIT)) =
    [Bybit; OKX; CryptoCompare].
Proof.
  assert (H1 : usable (fst (fetch_from_bybit keep sample_env_fallback LIMIT)) = false)
    by reflexivity.
  assert (H2 : usable (fst (fetch_from_okx keep sample_env_fallback LIMIT)) = false)
    by reflexivity.
  assert (H3 : usable (fst (fetch_from_cryptocompare keep sample_env_fallback LIMIT)) = true)
    by reflexivity.
  split; [exact H1|]. split; [exact H2|]. split; [exact H3|].
  exact (proj1 (proj2 (proj2 (fallback_order keep sample_env_fallback LIMIT))) H1 H2 H3).
Defined.

Lemma update_always_persists_witness :
  read_csv (Some (serialize sample_complete)) = Frame sample_complete /\
  fst (fetch_recent_klines keep sample_env LIMIT) = Some sample_new /\
  len (merge sample_complete sample_new) - len sample_complete = 0 /\
  fst (update_csv keep sample_env (Some (serialize sample_complete))) =
    (Returned true, Some (serialize (merge sample_complete sample_new))) /\
  In (Log Refreshed) (snd (update_csv keep sample_env (Some (serialize sample_complete)))).
Proof.
  assert (H1 : read_csv (Some (serialize sample_complete)) = Frame sample_complete)
    by reflexivity.
  assert (H2 : fst (fetch_recent_klines keep sample_env LIMIT) = Some sample_new)
    by reflexivity.
  assert (H3 : fst (to_csv sample_env (merge sample_complete sample_new)
                           (Some (serialize sample_complete))) = true)
    by reflexivity.
  split; [exact H1|]. split; [exact H2|]. split; [reflexivity|].
  exact (update_always_persists keep sample_env (Some (serialize sample_complete))
                                sample_complete sample_new H1 H2 H3).
Defined.

(** C7 at the sample: when the write is cut short right after the file was
    opened, the stored file is empty: neither the stored table nor the
    merged one. *)
Lemma save_not_atomic :
  read_csv sample_file = Frame sample_existing /\
  fst (fetch_recent_klines keep sample_env_cut LIMIT) = Some sample_new /\
  fst (update_csv keep sample_env_cut sample_file) = (Raised, Some []) /\
  snd (fst (update_csv keep sample_env_cut sample_file)) <> sample_file /\
  snd (fst (update_csv keep sample_env_cut sample_file)) <>
    Some (serialize (merge sample_existing sample_new)) /\
  read_csv (snd (fst (update_csv keep sample_env_cut sample_file))) = OtherError.
Proof.
  repeat split; try reflexivity; vm_compute; discriminate.
Qed.

Lemma save_overwrites_in_place_witness :
  read_csv sample_file = Frame sample_existing /\
  fst (fetch_recent_klines keep sample_env_cut LIMIT) = Some sample_new /\
  write_fault sample_env_cut = Some 1%nat /\
  fst (fst (update_csv keep sample_env_cut sample_file)) = Raised /\
  exists lines rest,
    snd (fst (update_csv keep sample_env_cut sample_file)) = Some lines /\
    rest <> [] /\
    serialize (merge sample_existing sample_new) = lines ++ rest.
Proof.
  assert (H1 : read_csv sample_file = Frame sample_existing) by reflexivity.
  assert (H2 : fst (fetch_recent_klines keep sample_env_cut LIMIT) = Some sample_new)
    by reflexivity.
  assert (H3 : write_fault sample_env_cut = Some 1%nat) by reflexivity.
  assert (H4 : (1 <= length (serialize (merge sample_existing sample_new)))%nat)
    by (vm_compute; lia).
  split; [exact H1|]. split; [exact H2|]. split; [exact H3|].
  destruct (proj2 (save_overwrites_in_place keep sample_env_cut sample_file
                     sample_existing sample_new H1 H2) 1%nat H3 H4)
    as [Hraised [_ Hpart]].
  split; [exact Hraised|]. apply Hpart. discriminate.
Defined.

(** C8 at the sample: the absent file and a file of one unreadable line are
    told apart by [read_csv], yet the value handed to [update_csv] is the
    same. *)
Lemma load_failures_not_distinct :
  read_csv (@None (list (Line Z))) = FileNotFoundError /\
  read_csv (Some [@Malformed Z]) = OtherError /\
  fst (get_latest_timestamp_from_csv (@None (list (Line Z)))) =
  fst (get_latest_timestamp_from_csv (Some [@Malformed Z])).
Proof. repeat split. Qed.

Lemma load_failures_same_value_witness :
  read_csv (@None (list (Line Z))) = FileNotFoundError /\
  read_csv (Some [@Malformed Z]) = OtherError /\
  get_latest_timestamp_from_csv (@None (list (Line Z))) =
    ((None, None), [Log CsvNotFound]) /\
  get_latest_timestamp_from_csv (Some [@Malformed Z]) =
    ((None, None), [Log CsvReadError]).
Proof.
  assert (H1 : read_csv (@None (list (Line Z))) = FileNotFoundError) by reflexivity.
  assert (H2 : read_csv (Some [@Malformed Z]) = OtherError) by reflexivity.
  split; [exact H1|]. split; [exact H2|].
  destruct (load_failures_same_value keep sample_env None (Some [Malformed]) H1 H2)
    as [Ha [Hc _]].
  split; [exact Ha|exact Hc].
Defined.


Lemma timestamp_conversion_witness :
  epoch_ms 1981 12 31 16 0 0 <= hour_ms 3 /\
  hour_ms 3 * NS_PER_MS + 8 * 3600 * NS_PER_S <= TIMESTAMP_MAX /\
  convert_timestamp NS_PER_MS (hour_ms 3) = Some (civil 2024 1 1 11 0 0).
Proof.
  assert (H1 : epoch_ms 1981 12 31 16 0 0 <= hour_ms 3) by (vm_compute; discriminate).
  assert (H2 : hour_ms 3 * NS_PER_MS + 8 * 3600 * NS_PER_S <= TIMESTAMP_MAX)
    by (vm_compute; discriminate).
  split; [exact H1|]. split; [exact H2|].
  exact (proj1 (timestamp_conversion keep) (hour_ms 3) H1 H2).
Defined.



(** * Further properties of the code *)

Section MergeFacts.
Context {price : Type}.
Implicit Types (df df_existing df_new : DataFrame price).
Implicit Types (r : Row price) (ts : Timestamp).

Lemma index_app df1 df2 : index (df1 ++ df2) = index df1 ++ index df2.
Proof. apply map_app. Qed.

Lemma length_index df : length (index df) = length df.
Proof. apply length_map. Qed.

Lemma In_index_last_at ts df :
  In ts (index df) <-> exists r, last_at ts df = Some r.
Proof.
  split.
  - intros Hin. destruct (last_at ts df) as [r|] eqn:L; [now exists r|].
    apply last_at_None in L. contradiction.
  - intros [r L]. destruct (in_dec Z.eq_dec ts (index df)) as [H|H]; [exact H|].
    apply last_at_None in H. congruence.
Qed.

Lemma In_index_merge ts df_existing df_new :
  In ts (index (merge df_existing df_new)) <->
  In ts (index df_existing) \/ In ts (index df_new).
Proof.
  rewrite In_index_last_at. setoid_rewrite last_at_merge.
  rewrite <- In_index_last_at, index_app. apply in_app_iff.
Qed.

Lemma length_drop_duplicates_last df :
  (length (drop_duplicates_last df) <= length df)%nat.
Proof.
  induction df as [|x xs IH]; simpl; [lia|].
  destruct (existsb (Z.eqb (fst x)) (index xs)); simpl; lia.
Qed.

Lemma length_merge df_existing df_new :
  length (merge df_existing df_new) =
  length (drop_duplicates_last (df_existing ++ df_new)).
Proof.
  rewrite merge_unfold. apply Permutation_length, sort_index_perm.
Qed.

(** In a frame without repeated labels a label determines its row. *)
Lemma unique_row df r1 r2 :
  NoDup (index df) -> In r1 df -> In r2 df -> fst r1 = fst r2 -> r1 = r2.
Proof.
  intros Hnd H1 H2 Hfst.
  pose proof (last_at_unique (fst r2) df r1 Hnd H1 Hfst) as L1.
  pose proof (last_at_unique (fst r2) df r2 Hnd H2 eq_refl) as L2.
  congruence.
Qed.

Lemma last_at_Permutation ts df df' :
  NoDup (index df) -> Permutation df df' -> last_at ts df = last_at ts df'.
Proof.
  intros Hnd Hperm.
  assert (Hnd' : NoDup (index df')).
  { eapply Permutation_NoDup; [|exact Hnd]. now apply Permutation_map. }
  destruct (last_at ts df) as [r|] eqn:L.
  - symmetry. apply last_at_unique; [exact Hnd'| |now apply last_at_fst in L].
    eapply Permutation_in; [exact Hperm|]. now apply last_at_In in L.
  - destruct (last_at ts df') as [r|] eqn:L'; [|reflexivity].
    apply last_at_fst in L' as Hfst. apply last_at_In in L'.
    apply Permutation_sym in Hperm.
    pose proof (Permutation_in _ Hperm L') as Hin.
    rewrite (last_at_unique ts df r Hnd Hin Hfst) in L. discriminate.
Qed.

(** X1. The merged table holds exactly the time stamps of the stored table
    and of the fetched rows, and each of its rows is a row of one of the
    two: no hour is lost and no row is made up. *)
Theorem merge_index_union df_existing df_new :
  (forall ts,
     In ts (index (merge df_existing df_new)) <->
     In ts (index df_existing) \/ In ts (index df_new)) /\
  (forall r,
     In r (merge df_existing df_new) -> In r df_existing \/ In r df_new).
Proof.
  split.
  - intros ts. apply In_index_merge.
  - intros r Hin. apply In_merge in Hin. apply last_at_In in Hin.
    now apply in_app_or.
Qed.

(** X2. Row count of a merge: never more rows added than were fetched; on a
    stored table without repeated time stamps never fewer rows than before,
    and no row added exactly when every fetched time stamp was stored
    already. *)
Theorem new_rows_bounds df_existing df_new :
  len (merge df_existing df_new) - len df_existing <= len df_new /\
  (NoDup (index df_existing) ->
     0 <= len (merge df_existing df_new) - len df_existing /\
     (len (merge df_existing df_new) - len df_existing = 0 <->
      incl (index df_new) (index df_existing))).
Proof.
  unfold len. split.
  - rewrite length_merge.
    pose proof (length_drop_duplicates_last (df_existing ++ df_new)) as H.
    rewrite length_app in H. lia.
  - intros Hnd.
    assert (Hincl : incl (index df_existing) (index (merge df_existing df_new))).
    { intros ts Hts. apply In_index_merge. now left. }
    pose proof (NoDup_incl_length Hnd Hincl) as Hle.
    rewrite !length_index in Hle. split; [lia|]. split.
    + intros Heq ts Hts.
      assert (Hlen : (length (index (merge df_existing df_new)) <=
                      length (index df_existing))%nat)
        by (rewrite !length_index; lia).
      apply (NoDup_length_incl Hnd Hlen Hincl).
      apply In_index_merge. now right.
    + intros Hsub.
      assert (Hback : incl (index (merge df_existing df_new)) (index df_existing)).
      { intros ts Hts. apply In_index_merge in Hts. destruct Hts as [H|H];
          [exact H|now apply Hsub]. }
      pose proof (NoDup_incl_length (lt_NoDup _ (merge_lt df_existing df_new)) Hback)
        as Hge.
      rewrite !length_index in Hge. lia.
Qed.

(** X3. Appending: when the stored rows followed by the fetched rows are
    already in strictly increasing order of time stamp, the merge is the
    plain concatenation. *)
Theorem merge_append df_existing df_new :
  table_invariant (df_existing ++ df_new) ->
  merge df_existing df_new = df_existing ++ df_new.
Proof.
  intros H. apply increasing_lt in H. rewrite merge_unfold.
  rewrite drop_duplicates_last_unique by now apply lt_NoDup.
  apply sort_index_sorted. now apply lt_le.
Qed.

(** X4. Fetching again what is stored: when the stored table satisfies the
    table invariant and every fetched row is already a stored row, the merge
    returns the stored table. *)
Theorem merge_refetch_unchanged df_existing df_new :
  table_invariant df_existing ->
  (forall r, In r df_new -> In r df_existing) ->
  merge df_existing df_new = df_existing.
Proof.
  intros Hinv Hsub. apply increasing_lt in Hinv.
  pose proof (lt_NoDup _ Hinv) as Hnd.
  apply lt_ext; [apply merge_lt|exact Hinv|].
  intros r. rewrite In_merge, last_at_app. split.
  - destruct (last_at (fst r) df_new) as [x|] eqn:L.
    + intros [= ->]. apply Hsub. now apply last_at_In in L.
    + apply last_at_In.
  - intros Hin. destruct (last_at (fst r) df_new) as [x|] eqn:L.
    + f_equal. apply last_at_fst in L as Hfst. apply last_at_In in L.
      apply (unique_row df_existing); auto.
    + now apply last_at_unique.
Qed.

(** X5. Row order of the inputs: two stored tables with the same rows in any
    order, and two fetches with the same rows in any order, all without
    repeated time stamps, merge to the same table. *)
Theorem merge_order_irrelevant df_existing df_existing' df_new df_new' :
  NoDup (index df_existing) ->
  NoDup (index df_new) ->
  Permutation df_existing df_existing' ->
  Permutation df_new df_new' ->
  merge df_existing df_new = merge df_existing' df_new'.
Proof.
  intros Hnd1 Hnd2 Hp1 Hp2. apply lt_ext; try apply merge_lt.
  intros r. rewrite !In_merge, !last_at_app.
  rewrite (last_at_Permutation _ _ _ Hnd1 Hp1).
  now rewrite (last_at_Permutation _ _ _ Hnd2 Hp2).
Qed.

End MergeFacts.

Section AdapterFacts.
Context {raw price : Type} (to_numeric : raw -> price).
Implicit Types (env : Env raw) (file : File price) (limit : Z).
Implicit Types (df df_existing df_new : DataFrame price).

Ltac run_step := rewrite ?fst_bind, ?snd_bind; cbv beta iota.

Lemma traverse_length {A B} (f : A -> option B) (l : list A) (l' : list B) :
  traverse f l = Some l' -> length l' = length l.
Proof.
  revert l'. induction l as [|a rest IH]; simpl; intros l'.
  - now intros [= <-].
  - destruct (f a) as [b|]; [|discriminate].
    destruct (traverse f rest) as [bs|]; [|discriminate].
    intros [= <-]. simpl. now rewrite (IH bs).
Qed.

Lemma traverse_In {A B} (f : A -> option B) (l : list A) (l' : list B) :
  traverse f l = Some l' ->
  forall b, In b l' <-> exists a, In a l /\ f a = Some b.
Proof.
  revert l'. induction l as [|a rest IH]; simpl; intros l'.
  - intros [= <-] b. simpl. split; [intros []|intros [a [[] _]]].
  - destruct (f a) as [b0|] eqn:Fa; [|discriminate].
    destruct (traverse f rest) as [bs|]; [|discriminate].
    intros [= <-] b. simpl. rewrite (IH bs eq_refl b). split.
    + intros [<-|[a' [Hin Hf]]]; [exists a; auto|exists a'; auto].
    + intros [a' [[<-|Hin] Hf]]; [left; congruence|right; exists a'; auto].
Qed.

(** The value an adapter returns, read off its body. *)
Lemma adapter_value api cast unit_ns env limit :
  fst (adapter to_numeric api cast unit_ns env limit) =
  match network env api with
  | Unavailable => None
  | Envelope success klines =>
      if negb success then None
      else
        match klines with
        | [] => None
        | _ :: _ =>
            match traverse (kline_row to_numeric cast unit_ns) klines with
            | None => None
            | Some df => Some (sort_index df)
            end
        end
  end.
Proof.
  unfold adapter. run_step. unfold request. cbn [fst].
  destruct (network env api) as [|success klines]; [reflexivity|].
  destruct success; [|reflexivity]. cbn [negb].
  destruct klines as [|k ks]; [reflexivity|].
  destruct (traverse _ _); [|reflexivity]. now run_step.
Qed.

Lemma adapter_result_shape api cast unit_ns env limit df :
  fst (adapter to_numeric api cast unit_ns env limit) = Some df ->
  len df > 0 /\ StronglySorted row_le df.
Proof.
  rewrite adapter_value.
  destruct (network env api) as [|success klines]; [discriminate|].
  destruct success; [|discriminate]. cbn [negb].
  destruct klines as [|k ks]; [discriminate|].
  destruct (traverse _ (k :: ks)) as [rows|] eqn:T; [|discriminate].
  intros [= <-]. split; [|apply sort_index_le].
  unfold len. rewrite (Permutation_length (sort_index_perm rows)).
  apply traverse_length in T. rewrite T. simpl length. lia.
Qed.

(** X6. A successful adapter call returns one row per record of a payload
    that passed the envelope check: the rows are the converted records, all
    of them and nothing else, in ascending order of time stamp whatever the
    order the provider sent them in; the frame is never empty. *)
Theorem adapter_success_rows api cast unit_ns env limit df :
  fst (adapter to_numeric api cast unit_ns env limit) = Some df ->
  exists klines,
    network env api = Envelope true klines /\
    length df = length klines /\
    len df > 0 /\
    StronglySorted row_le df /\
    forall r, In r df <->
              exists k, In k klines /\ kline_row to_numeric cast unit_ns k = Some r.
Proof.
  rewrite adapter_value.
  destruct (network env api) as [|success klines]; [discriminate|].
  destruct success; [|discriminate]. cbn [negb].
  destruct klines as [|k ks]; [discriminate|].
  destruct (traverse _ (k :: ks)) as [rows|] eqn:T; [|discriminate].
  intros [= <-]. exists (k :: ks).
  assert (Hlen : length (sort_index rows) = length (k :: ks)).
  { rewrite (Permutation_length (sort_index_perm rows)).
    now apply traverse_length in T. }
  split; [reflexivity|]. split; [exact Hlen|]. split.
  - unfold len. rewrite Hlen. simpl length. lia.
  - split; [apply sort_index_le|].
    intros r. rewrite In_sort_index. now apply traverse_In.
Qed.


(** X8. Whatever the provider answers, one adapter call sends exactly one
    request, to its own provider and with the limit it was called with:
    there is no retry inside an adapter. *)
Theorem adapter_single_request api cast unit_ns env limit :
  filter is_request (snd (adapter to_numeric api cast unit_ns env limit)) =
  [Request api limit].
Proof.
  unfold adapter. run_step. unfold request, log. cbn [fst snd app filter is_request].
  f_equal. destruct (network env api) as [|success klines]; [reflexivity|].
  destruct success; [|reflexivity]. destruct klines as [|k ks]; [reflexivity|].
  now destruct (traverse _ _).
Qed.

(** *** The fetcher *)

Lemma fetch_recent_klines_value env limit :
  fst (fetch_recent_klines to_numeric env limit) =
  if usable (fst (fetch_from_bybit to_numeric env limit))
  then fst (fetch_from_bybit to_numeric env limit)
  else if usable (fst (fetch_from_okx to_numeric env limit))
  then fst (fetch_from_okx to_numeric env limit)
  else if usable (fst (fetch_from_cryptocompare to_numeric env limit))
  then fst (fetch_from_cryptocompare to_numeric env limit)
  else None.
Proof.
  unfold fetch_recent_klines, apis. rewrite !try_apis_cons. run_step.
  destruct (usable (fst (fetch_from_bybit to_numeric env limit)));
    run_step; [reflexivity|].
  destruct (usable (fst (fetch_from_okx to_numeric env limit)));
    run_step; [reflexivity|].
  destruct (usable (fst (fetch_from_cryptocompare to_numeric env limit)));
    run_step; reflexivity.
Qed.

Lemma adapter_usable api cast unit_ns env limit :
  usable (fst (adapter to_numeric api cast unit_ns env limit)) = false <->
  fst (adapter to_numeric api cast unit_ns env limit) = None.
Proof.
  destruct (fst (adapter to_numeric api cast unit_ns env limit)) as [df|] eqn:E.
  - destruct (adapter_result_shape api cast unit_ns env limit df E) as [Hpos _].
    simpl. split; [|discriminate].
    destruct (Z.gtb_spec (len df) 0); [discriminate|lia].
  - split; reflexivity.
Qed.

End AdapterFacts.

Section RunFacts.
Context {raw price : Type} (to_numeric : raw -> price).
Implicit Types (env : Env raw) (file : File price) (limit : Z).
Implicit Types (df df_existing df_new : DataFrame price).

Ltac run_step := rewrite ?fst_bind, ?snd_bind; cbv beta iota.

(** X9. The fetcher returns the answer of the first provider, in the order
    Bybit, OKX, CryptoCompare, that returns a frame, whole and unmixed with
    any other provider's rows; a returned frame is never empty and is in
    ascending order of time stamp, so the emptiness test of [update_csv] on
    the fetched frame never fires. *)
Theorem fetch_first_answer env limit :
  fst (fetch_recent_klines to_numeric env limit) =
    match fst (fetch_from_bybit to_numeric env limit) with
    | Some df => Some df
    | None =>
        match fst (fetch_from_okx to_numeric env limit) with
        | Some df => Some df
        | None => fst (fetch_from_cryptocompare to_numeric env limit)
        end
    end /\
  forall df,
    fst (fetch_recent_klines to_numeric env limit) = Some df ->
    len df > 0 /\ StronglySorted row_le df.
Proof.
  assert (Hval :
    fst (fetch_recent_klines to_numeric env limit) =
    match fst (fetch_from_bybit to_numeric env limit) with
    | Some df => Some df
    | None =>
        match fst (fetch_from_okx to_numeric env limit) with
        | Some df => Some df
        | None => fst (fetch_from_cryptocompare to_numeric env limit)
        end
    end).
  { rewrite fetch_recent_klines_value.
    unfold fetch_from_bybit, fetch_from_okx, fetch_from_cryptocompare.
    repeat match goal with
    | |- context [usable (fst (adapter to_numeric ?a ?c ?u env limit))] =>
        let U := fresh "U" in
        destruct (usable (fst (adapter to_numeric a c u env limit))) eqn:U;
        [ destruct (fst (adapter to_numeric a c u env limit));
          [|discriminate U]
        | apply adapter_usable in U; rewrite U ]
    end; reflexivity. }
  split; [exact Hval|].
  intros df. rewrite Hval.
  unfold fetch_from_bybit, fetch_from_okx, fetch_from_cryptocompare.
  destruct (fst (adapter to_numeric Bybit astype_int NS_PER_MS env limit))
    as [b|] eqn:B.
  - intros [= <-]. exact (adapter_result_shape _ _ _ _ _ _ _ B).
  - destruct (fst (adapter to_numeric OKX astype_int NS_PER_MS env limit))
      as [o|] eqn:O.
    + intros [= <-]. exact (adapter_result_shape _ _ _ _ _ _ _ O).
    + apply adapter_result_shape.
Qed.

(** *** The orchestrator *)

Lemma update_csv_not_loaded env file :
  read_csv file = FileNotFoundError \/ read_csv file = OtherError ->
  fst (update_csv to_numeric env file) = (Returned false, file).
Proof.
  intros [H|H]; unfold update_csv, get_latest_timestamp_from_csv;
    rewrite H; reflexivity.
Qed.

Lemma update_csv_fetch_fail env file :
  fst (fetch_recent_klines to_numeric env LIMIT) = None ->
  fst (update_csv to_numeric env file) = (Returned false, file).
Proof.
  intros Hfetch. unfold update_csv, get_latest_timestamp_from_csv.
  destruct (read_csv file) as [| |df|lines]; try reflexivity;
    run_step; simpl snd; cbv beta iota; run_step;
    rewrite Hfetch; cbv beta iota; now run_step.
Qed.

Lemma update_csv_text env file lines df_new :
  read_csv file = TextFrame lines ->
  fst (fetch_recent_klines to_numeric env LIMIT) = Some df_new ->
  fst (update_csv to_numeric env file) = (Raised, file).
Proof.
  intros Hread Hfetch.
  pose proof (fetch_recent_klines_usable _ _ _ _ Hfetch) as Hlen.
  unfold update_csv, get_latest_timestamp_from_csv. rewrite Hread.
  run_step. simpl snd. cbv beta iota. run_step. rewrite Hfetch. cbv beta iota.
  destruct (Z.eqb_spec (len df_new) 0) as [E|_]; [lia|]. now run_step.
Qed.


(** X11. A run that returns failure leaves the stored file as it was. *)
Theorem failed_run_keeps_file env file :
  fst (fst (update_csv to_numeric env file)) = Returned false ->
  snd (fst (update_csv to_numeric env file)) = file.
Proof.
  destruct (fst (fetch_recent_klines to_numeric env LIMIT)) as [n|] eqn:Hfetch.
  - destruct (read_csv file) as [| |e|lines] eqn:Hread.
    + rewrite update_csv_not_loaded by (rewrite Hread; auto). reflexivity.
    + rewrite update_csv_not_loaded by (rewrite Hread; auto). reflexivity.
    + rewrite (update_csv_run _ _ _ _ _ Hread Hfetch). cbn [fst snd].
      destruct (fst (to_csv env (merge e n) file)); discriminate.
    + now rewrite (update_csv_text _ _ _ _ Hread Hfetch).
  - now rewrite (update_csv_fetch_fail _ _ Hfetch).
Qed.

Lemma update_csv_true_iff env file :
  fst (fst (update_csv to_numeric env file)) = Returned true <->
  exists df_existing df_new,
    read_csv file = Frame df_existing /\
    fst (fetch_recent_klines to_numeric env LIMIT) = Some df_new /\
    fst (to_csv env (merge df_existing df_new) file) = true.
Proof.
  split.
  - destruct (fst (fetch_recent_klines to_numeric env LIMIT)) as [n|] eqn:Hfetch.
    + destruct (read_csv file) as [| |e|lines] eqn:Hread.
      * rewrite update_csv_not_loaded by (rewrite Hread; auto). discriminate.
      * rewrite update_csv_not_loaded by (rewrite Hread; auto). discriminate.
      * rewrite (update_csv_run _ _ _ _ _ Hread Hfetch). cbn [fst].
        destruct (fst (to_csv env (merge e n) file)) eqn:Hdone; [|discriminate].
        intros _. exists e, n. auto.
      * rewrite (update_csv_text _ _ _ _ Hread Hfetch). discriminate.
    + rewrite (update_csv_fetch_fail _ _ Hfetch). discriminate.
  - intros [e [n [Hread [Hfetch Hdone]]]].
    now rewrite (update_csv_run _ _ _ _ _ Hread Hfetch), Hdone.
Qed.

(** X14. [main] exits with status 0 exactly when the stored table was loaded,
    a provider returned a frame and the write ran to its end; in every other
    case it exits with status 1; the stored file is the one [update_csv]
    left. *)
Theorem main_exit_status env file :
  (fst (fst (main to_numeric env file)) = 0 <->
     exists df_existing df_new,
       read_csv file = Frame df_existing /\
       fst (fetch_recent_klines to_numeric env LIMIT) = Some df_new /\
       fst (to_csv env (merge df_existing df_new) file) = true) /\
  (fst (fst (main to_numeric env file)) = 0 \/
   fst (fst (main to_numeric env file)) = 1) /\
  snd (fst (main to_numeric env file)) =
    snd (fst (update_csv to_numeric env file)).
Proof.
  assert (Hmain :
    fst (main to_numeric env file) =
    (match fst (fst (update_csv to_numeric env file)) with
     | Returned true => 0
     | _ => 1
     end, snd (fst (update_csv to_numeric env file)))).
  { unfold main. run_step.
    destruct (fst (fst (update_csv to_numeric env file))) as [[|]|];
      run_step; reflexivity. }
  rewrite Hmain. cbn [fst snd].
  rewrite <- (update_csv_true_iff env file).
  destruct (fst (fst (update_csv to_numeric env file))) as [[|]|];
    repeat split; auto; discriminate.
Qed.

End RunFacts.


Section StoreFacts.
Context {price : Type}.
Implicit Types (df : DataFrame price) (file : File price).

Lemma fold_max_ge (l : list Z) (a : Z) : a <= fold_left Z.max l a.
Proof.
  revert a. induction l as [|x xs IH]; simpl; intros a; [lia|].
  specialize (IH (Z.max a x)). lia.
Qed.

Lemma fold_max_upper (l : list Z) (a : Z) :
  forall t, In t l -> t <= fold_left Z.max l a.
Proof.
  revert a. induction l as [|x xs IH]; simpl; intros a t; [intros []|].
  intros [<-|Hin]; [|now apply IH].
  pose proof (fold_max_ge xs (Z.max a x)). lia.
Qed.

Lemma fold_max_In (l : list Z) (a : Z) :
  fold_left Z.max l a = a \/ In (fold_left Z.max l a) l.
Proof.
  revert a. induction l as [|x xs IH]; simpl; intros a; [now left|].
  destruct (IH (Z.max a x)) as [H|H]; [|now right; right].
  rewrite H. destruct (Z.max_spec a x) as [[_ E]|[_ E]]; rewrite E; auto.
Qed.

(** X15. Loading a readable file returns its table together with the latest
    time stamp: a time stamp of the table that no time stamp of the table
    exceeds, wherever it stands in the file; for a table without rows the
    latest time stamp is NaT. *)
Theorem latest_timestamp_is_maximum file df :
  read_csv file = Frame df ->
  fst (get_latest_timestamp_from_csv file) =
    (Some (LatestStamp (index_max df)), Some (Parsed df)) /\
  (index_max df = None <-> df = []) /\
  forall latest,
    index_max df = Some latest ->
    In latest (index df) /\ forall ts, In ts (index df) -> ts <= latest.
Proof.
  intros Hread. unfold get_latest_timestamp_from_csv. rewrite Hread.
  split; [reflexivity|]. unfold index_max.
  destruct df as [|r rs]; simpl.
  - split; [tauto|]. discriminate.
  - split; [split; discriminate|].
    intros latest [= <-]. split.
    + destruct (fold_max_In (map fst rs) (fst r)) as [H|H];
        [left; symmetry; exact H|right; exact H].
    + intros ts [<-|Hin]; [apply fold_max_ge|now apply fold_max_upper].
Qed.

End StoreFacts.

Section ConversionFacts.
Context {raw price : Type} (to_numeric : raw -> price).

(** X16. The same instant sent in milliseconds (Bybit, OKX) and in seconds
    (CryptoCompare) gives the same row, or fails for both: rows of different
    providers for one hour carry one and the same label. *)
Theorem seconds_and_milliseconds_agree (s : Z) (c : Candle raw) :
  kline_row to_numeric astype_int NS_PER_MS (mkKline (Some (s * 1000)) c) =
  kline_row to_numeric (fun cell => cell) NS_PER_S (mkKline (Some s) c).
Proof.
  unfold kline_row, astype_int. cbn [open_time cells].
  destruct ((INT64_MIN <=? s * 1000) && (s * 1000 <=? INT64_MAX)) eqn:E.
  - unfold convert_timestamp, to_datetime.
    replace (s * 1000 * NS_PER_MS) with (s * NS_PER_S)
      by (unfold NS_PER_MS, NS_PER_S; lia).
    reflexivity.
  - assert (Hout : to_datetime NS_PER_S s = None).
    { unfold to_datetime.
      unfold INT64_MIN, INT64_MAX, TIMESTAMP_MIN, TIMESTAMP_MAX, NS_PER_S in *.
      apply andb_false_iff in E.
      destruct (Z.leb_spec (-9223372036854775807) (s * 1000000000));
        destruct (Z.leb_spec (s * 1000000000) 9223372036854775807);
        cbn [andb]; try reflexivity.
      destruct E as [E|E]; apply Z.leb_gt in E; lia. }
    unfold convert_timestamp. now rewrite Hout.
Qed.

(** X17. From 1981-12-31 16:00 UTC on, and within the range of the time stamp
    type, the conversion keeps the order of the provider's time stamps: a
    later instant gets a later label, so distinct instants never share one. *)
Theorem conversion_preserves_order (unit_ns x y : Z) :
  0 < unit_ns ->
  378662400 * NS_PER_S <= x * unit_ns ->
  y * unit_ns + 8 * 3600 * NS_PER_S <= TIMESTAMP_MAX ->
  x < y ->
  exists tx ty,
    convert_timestamp unit_ns x = Some tx /\
    convert_timestamp unit_ns y = Some ty /\
    tx < ty.
Proof.
  intros Hunit Hlo Hhi Hxy.
  assert (Hmul : x * unit_ns < y * unit_ns) by nia.
  exists (x * unit_ns + 8 * 3600 * NS_PER_S), (y * unit_ns + 8 * 3600 * NS_PER_S).
  split; [apply convert_timestamp_plus8; lia|].
  split; [apply convert_timestamp_plus8; lia|lia].
Qed.

End ConversionFacts.


(** ** The further properties at the sample data *)

Lemma merge_index_union_witness :
  In (hour 3) (index sample_new) /\
  In (hour 3) (index (merge sample_existing sample_new)).
Proof.
  assert (H : In (hour 3) (index sample_new)) by (right; left; reflexivity).
  split; [exact H|].
  exact (proj2 (proj1 (merge_index_union sample_existing sample_new) (hour 3))
               (or_intror H)).
Defined.

Lemma new_rows_bounds_witness :
  NoDup (index sample_existing) /\
  0 <= len (merge sample_existing sample_new) - len sample_existing.
Proof.
  assert (H : NoDup (index sample_existing))
    by (apply lt_NoDup, increasing_lt; reflexivity).
  split; [exact H|].
  exact (proj1 (proj2 (new_rows_bounds sample_existing sample_new) H)).
Defined.

Lemma merge_append_witness :
  table_invariant (sample_existing ++ sample_later) /\
  merge sample_existing sample_later = sample_existing ++ sample_later.
Proof.
  assert (H : table_invariant (sample_existing ++ sample_later)) by reflexivity.
  split; [exact H|]. exact (merge_append sample_existing sample_later H).
Defined.

Lemma merge_refetch_unchanged_witness :
  table_invariant sample_existing /\
  (forall r, In r sample_stored_again -> In r sample_existing) /\
  merge sample_existing sample_stored_again = sample_existing.
Proof.
  assert (H1 : table_invariant sample_existing) by reflexivity.
  assert (H2 : forall r, In r sample_stored_again -> In r sample_existing).
  { intros r [<-|[<-|[]]]; [right; left|right; right; left]; reflexivity. }
  split; [exact H1|]. split; [exact H2|].
  exact (merge_refetch_unchanged sample_existing sample_stored_again H1 H2).
Defined.

Lemma merge_order_irrelevant_witness :
  Permutation sample_shuffled sample_existing /\
  merge sample_shuffled sample_new = merge sample_existing sample_new.
Proof.
  assert (Hp : Permutation sample_shuffled sample_existing)
    by exact (Permutation_cons_append
                [(hour 0, flat 10); (hour 1, flat 11)] (hour 2, flat 12)).
  assert (H1 : NoDup (index sample_shuffled)).
  { apply (Permutation_NoDup (l := index sample_existing)).
    - apply Permutation_map. symmetry. exact Hp.
    - apply lt_NoDup, increasing_lt. reflexivity. }
  assert (H2 : NoDup (index sample_new))
    by (apply lt_NoDup, increasing_lt; reflexivity).
  split; [exact Hp|].
  exact (merge_order_irrelevant sample_shuffled sample_existing
                                sample_new sample_new H1 H2 Hp
                                (Permutation_refl sample_new)).
Defined.

Lemma adapter_success_rows_witness :
  fst (fetch_from_bybit keep sample_env LIMIT) = Some sample_new /\
  exists klines,
    network sample_env Bybit = Envelope true klines /\
    length sample_new = length klines /\
    len sample_new > 0 /\
    StronglySorted row_le sample_new /\
    forall r, In r sample_new <->
              exists k, In k klines /\ kline_row keep astype_int NS_PER_MS k = Some r.
Proof.
  assert (H : fst (fetch_from_bybit keep sample_env LIMIT) = Some sample_new)
    by reflexivity.
  split; [exact H|].
  exact (adapter_success_rows keep Bybit astype_int NS_PER_MS sample_env LIMIT
                              sample_new H).
Defined.


Lemma fetch_first_answer_witness :
  fst (fetch_recent_klines keep sample_env_fallback LIMIT) = Some sample_new /\
  len sample_new > 0 /\ StronglySorted row_le sample_new.
Proof.
  assert (H : fst (fetch_recent_klines keep sample_env_fallback LIMIT) = Some sample_new)
    by reflexivity.
  split; [exact H|].
  exact (proj2 (fetch_first_answer keep sample_env_fallback LIMIT) sample_new H).
Defined.


Lemma failed_run_keeps_file_witness :
  fst (fst (update_csv keep (mkEnv (fun _ => Unavailable) None) sample_file)) =
    Returned false /\
  snd (fst (update_csv keep (mkEnv (fun _ => Unavailable) None) sample_file)) =
    sample_file.
Proof.
  assert (H : fst (fst (update_csv keep (mkEnv (fun _ => Unavailable) None)
                                   sample_file)) = Returned false) by reflexivity.
  split; [exact H|].
  exact (failed_run_keeps_file keep (mkEnv (fun _ => Unavailable) None) sample_file H).
Defined.


Lemma main_exit_status_witness :
  read_csv sample_file = Frame sample_existing /\
  fst (fetch_recent_klines keep sample_env LIMIT) = Some sample_new /\
  fst (to_csv sample_env (merge sample_existing sample_new) sample_file) = true /\
  fst (fst (main keep sample_env sample_file)) = 0.
Proof.
  assert (H1 : read_csv sample_file = Frame sample_existing) by reflexivity.
  assert (H2 : fst (fetch_recent_klines keep sample_env LIMIT) = Some sample_new)
    by reflexivity.
  assert (H3 : fst (to_csv sample_env (merge sample_existing sample_new)
                           sample_file) = true) by reflexivity.
  split; [exact H1|]. split; [exact H2|]. split; [exact H3|].
  apply (proj2 (proj1 (main_exit_status keep sample_env sample_file))).
  exists sample_existing, sample_new. split; [exact H1|]. split; [exact H2|exact H3].
Defined.

Lemma latest_timestamp_is_maximum_witness :
  read_csv (Some (serialize sample_shuffled)) = Frame sample_shuffled /\
  index_max sample_shuffled = Some (hour 2) /\
  In (hour 2) (index sample_shuffled) /\
  forall ts, In ts (index sample_shuffled) -> ts <= hour 2.
Proof.
  assert (H1 : read_csv (Some (serialize sample_shuffled)) = Frame sample_shuffled)
    by reflexivity.
  assert (H2 : index_max sample_shuffled = Some (hour 2)) by reflexivity.
  split; [exact H1|]. split; [exact H2|].
  exact (proj2 (proj2 (latest_timestamp_is_maximum
                         (Some (serialize sample_shuffled)) sample_shuffled H1))
               (hour 2) H2).
Defined.

Lemma conversion_preserves_order_witness :
  0 < NS_PER_MS /\
  378662400 * NS_PER_S <= hour_ms 0 * NS_PER_MS /\
  hour_ms 1 * NS_PER_MS + 8 * 3600 * NS_PER_S <= TIMESTAMP_MAX /\
  hour_ms 0 < hour_ms 1 /\
  exists tx ty,
    convert_timestamp NS_PER_MS (hour_ms 0) = Some tx /\
    convert_timestamp NS_PER_MS (hour_ms 1) = Some ty /\
    tx < ty.
Proof.
  assert (H1 : 0 < NS_PER_MS) by reflexivity.
  assert (H2 : 378662400 * NS_PER_S <= hour_ms 0 * NS_PER_MS)
    by (vm_compute; discriminate).
  assert (H3 : hour_ms 1 * NS_PER_MS + 8 * 3600 * NS_PER_S <= TIMESTAMP_MAX)
    by (vm_compute; discriminate).
  assert (H4 : hour_ms 0 < hour_ms 1) by reflexivity.
  split; [exact H1|]. split; [exact H2|]. split; [exact H3|]. split; [exact H4|].
  exact (conversion_preserves_order NS_PER_MS (hour_ms 0) (hour_ms 1) H1 H2 H3 H4).
Defined.

(** * The reconciler on frames with missing and text labels *)

Section AnyFacts.
Context {price : Type}.
Implicit Types (df df_existing df_new m : AnyFrame price) (r : AnyRow price).
Implicit Types (a b k : Label) (idx : list Label).

Lemma label_eqb_eq a b : label_eqb a b = true <-> a = b.
Proof.
  destruct a as [x|s|], b as [y|u|]; simpl; split;
    try discriminate; try reflexivity; intros H.
  - apply Z.eqb_eq in H. now subst.
  - injection H as ->. apply Z.eqb_refl.
  - apply String.eqb_eq in H. now subst.
  - injection H as ->. apply String.eqb_refl.
Qed.

Lemma existsb_label k idx : existsb (label_eqb k) idx = true <-> In k idx.
Proof.
  rewrite existsb_exists. split.
  - intros [x [Hin Heq]]. apply label_eqb_eq in Heq. now subst.
  - intros Hin. exists k. split; [assumption|now apply label_eqb_eq].
Qed.

Lemma label_leb_total a b : label_leb a b = true \/ label_leb b a = true.
Proof.
  destruct a as [x|s|], b as [y|u|]; simpl; auto.
  - destruct (Z.leb_spec x y); [now left|right]. apply Z.leb_le. lia.
  - apply String.leb_total.
Qed.

(** Of two different labels in sorted order the first is not missing, and
    if the second is not missing either and both are of one kind, the first
    is smaller. *)
Lemma label_leb_ltb a b :
  label_leb a b = true -> a <> b ->
  a <> NaT /\
  (b <> NaT -> is_stamp a = is_stamp b -> label_ltb a b = true).
Proof.
  destruct a as [x|s|], b as [y|u|]; simpl; intros Hle Hne;
    try discriminate; (split; [discriminate || congruence|]);
    intros Hb Hkind; try discriminate; try congruence.
  - apply Z.leb_le in Hle. apply Z.ltb_lt.
    assert (x <> y) by congruence. lia.
  - unfold String.leb in Hle. unfold String.ltb.
    destruct (String.compare s u) eqn:C; try discriminate; [|reflexivity].
    apply String.compare_eq_iff in C. congruence.
Qed.

Lemma any_select_rows_duplicated df :
  any_select_rows (invert (any_duplicated_last (labels df))) df =
  any_drop_duplicates_last df.
Proof.
  induction df as [|r rs IH]; simpl; [reflexivity|].
  rewrite IH. now destruct (existsb (label_eqb (fst r)) (labels rs)).
Qed.

Lemma In_labels_drop k df :
  In k (labels (any_drop_duplicates_last df)) <-> In k (labels df).
Proof.
  induction df as [|x xs IH]; simpl; [reflexivity|].
  destruct (existsb (label_eqb (fst x)) (labels xs)) eqn:E; simpl.
  - rewrite IH. split; [now right|]. intros [<-|H]; [|exact H].
    now apply existsb_label.
  - now rewrite IH.
Qed.

Lemma NoDup_labels_drop df : NoDup (labels (any_drop_duplicates_last df)).
Proof.
  induction df as [|x xs IH]; simpl; [constructor|].
  destruct (existsb (label_eqb (fst x)) (labels xs)) eqn:E; [assumption|].
  simpl. constructor; [|assumption].
  intros H. apply (proj1 (In_labels_drop _ _)) in H.
  apply (proj2 (existsb_label _ _)) in H. congruence.
Qed.

Lemma any_insert_row_perm r df : Permutation (any_insert_row r df) (r :: df).
Proof.
  induction df as [|x xs IH]; simpl; [reflexivity|].
  destruct (label_leb (fst r) (fst x)); [reflexivity|].
  rewrite IH. apply perm_swap.
Qed.

Lemma any_sort_rows_perm df : Permutation (any_sort_rows df) df.
Proof.
  induction df as [|x xs IH]; simpl; [reflexivity|].
  rewrite any_insert_row_perm. now apply perm_skip.
Qed.

Lemma any_insert_row_sorted r df :
  Sorted any_row_le df -> Sorted any_row_le (any_insert_row r df).
Proof.
  induction 1 as [|x xs Hs IH Hhd]; simpl.
  - repeat constructor.
  - destruct (label_leb (fst r) (fst x)) eqn:E.
    + constructor; [now constructor|]. constructor. exact E.
    + assert (Hxr : any_row_le x r).
      { unfold any_row_le. destruct (label_leb_total (fst r) (fst x)); congruence. }
      constructor; [exact IH|].
      destruct xs as [|y ys]; simpl.
      * constructor. exact Hxr.
      * destruct (label_leb (fst r) (fst y)); constructor; [exact Hxr|].
        now inversion Hhd.
Qed.

Lemma any_sort_rows_sorted df : Sorted any_row_le (any_sort_rows df).
Proof.
  induction df as [|x xs IH]; simpl; [constructor|].
  now apply any_insert_row_sorted.
Qed.

Lemma Sorted_labels df :
  Sorted any_row_le df ->
  Sorted (fun a b => label_leb a b = true) (labels df).
Proof.
  induction 1 as [|x xs Hs IH Hhd]; simpl; constructor; [exact IH|].
  destruct Hhd; simpl; constructor. assumption.
Qed.

Lemma Sorted_adjacent {A} (R : A -> A -> Prop) (l : list A) :
  Sorted R l ->
  forall i x y, nth_error l i = Some x -> nth_error l (S i) = Some y -> R x y.
Proof.
  induction 1 as [|x0 xs Hs IH Hhd]; intros i x y Hx Hy.
  - destruct i; discriminate.
  - destruct i as [|i]; simpl in Hx, Hy.
    + injection Hx as <-. destruct Hhd as [|y0 ys Hr]; [discriminate|].
      simpl in Hy. now injection Hy as <-.
    + now apply (IH i).
Qed.

Lemma NoDup_adjacent {A} (l : list A) :
  NoDup l ->
  forall i x y, nth_error l i = Some x -> nth_error l (S i) = Some y -> x <> y.
Proof.
  intros Hnd i x y Hx Hy Heq. subst y.
  assert (Hi : (i < length l)%nat) by (apply nth_error_Some; congruence).
  pose proof (proj1 (NoDup_nth_error l) Hnd i (S i) Hi) as H.
  rewrite Hx, Hy in H. specialize (H eq_refl). lia.
Qed.

Lemma mixed_iff idx :
  mixed idx = true <->
  (exists t, In (Stamp t) idx) /\ (exists s, In (Text s) idx).
Proof.
  unfold mixed. rewrite andb_true_iff, !existsb_exists. split.
  - intros [[a [Ha Sa]] [b [Hb Tb]]].
    destruct a as [t| |]; try discriminate. destruct b as [|s|]; try discriminate.
    split; [now exists t|now exists s].
  - intros [[t Ht] [s Hs]]. split; [now exists (Stamp t)|now exists (Text s)].
Qed.

Lemma mixed_same idx idx' :
  (forall k, In k idx <-> In k idx') -> mixed idx = mixed idx'.
Proof.
  intros H. destruct (mixed idx) eqn:E, (mixed idx') eqn:E'; try reflexivity.
  - apply mixed_iff in E. destruct E as [[t Ht] [s Hs]].
    assert (M : mixed idx' = true).
    { apply mixed_iff. split; [exists t|exists s]; now apply H. }
    congruence.
  - apply mixed_iff in E'. destruct E' as [[t Ht] [s Hs]].
    assert (M : mixed idx = true).
    { apply mixed_iff. split; [exists t|exists s]; now apply H. }
    congruence.
Qed.

Lemma any_merge_unfold df_existing df_new :
  any_merge df_existing df_new =
  any_sort_index (any_drop_duplicates_last (df_existing ++ df_new)).
Proof. unfold any_merge. now rewrite any_select_rows_duplicated. Qed.

(** The merge raises exactly when the two frames together hold both time
    stamps and text. *)
Lemma any_merge_None df_existing df_new :
  any_merge df_existing df_new = None <->
  mixed (labels (df_existing ++ df_new)) = true.
Proof.
  rewrite any_merge_unfold. unfold any_sort_index.
  rewrite (mixed_same _ (labels (df_existing ++ df_new)))
    by (intros k; apply In_labels_drop).
  destruct (mixed (labels (df_existing ++ df_new))); split;
    try discriminate; reflexivity.
Qed.

Lemma In_labels_any_merge df_existing df_new m :
  any_merge df_existing df_new = Some m ->
  forall k, In k (labels m) <-> In k (labels (df_existing ++ df_new)).
Proof.
  rewrite any_merge_unfold. unfold any_sort_index.
  destruct (mixed _); [discriminate|]. intros [= <-] k. split.
  - intros H. apply (proj1 (In_labels_drop _ _)).
    eapply Permutation_in; [|exact H]. apply Permutation_map, any_sort_rows_perm.
  - intros H. apply (proj2 (In_labels_drop _ _)) in H.
    eapply Permutation_in; [|exact H].
    symmetry. apply Permutation_map, any_sort_rows_perm.
Qed.

(** The shape of a merged frame: no label twice; from each row to the next
    the first label is not missing and, unless the next one is missing, is
    the smaller of the two. *)
Lemma any_merge_shape df_existing df_new m :
  any_merge df_existing df_new = Some m ->
  NoDup (labels m) /\
  forall i a b,
    nth_error (labels m) i = Some a -> nth_error (labels m) (S i) = Some b ->
    a <> NaT /\ (b <> NaT -> label_ltb a b = true).
Proof.
  intros Hm.
  assert (Hmix : mixed (labels m) = false).
  { destruct (mixed (labels m)) eqn:E; [|reflexivity].
    rewrite (mixed_same _ _ (In_labels_any_merge _ _ _ Hm)) in E.
    apply any_merge_None in E. congruence. }
  rewrite any_merge_unfold in Hm. unfold any_sort_index in Hm.
  destruct (mixed _); [discriminate|]. injection Hm as <-.
  assert (Hnd : NoDup (labels (any_sort_rows
                                 (any_drop_duplicates_last (df_existing ++ df_new))))).
  { eapply Permutation_NoDup; [|apply NoDup_labels_drop].
    symmetry. apply Permutation_map, any_sort_rows_perm. }
  split; [exact Hnd|].
  intros i a b Ha Hb.
  pose proof (Sorted_adjacent _ _ (Sorted_labels _ (any_sort_rows_sorted _))
                              i a b Ha Hb) as Hle.
  pose proof (NoDup_adjacent _ Hnd i a b Ha Hb) as Hne.
  destruct (label_leb_ltb a b Hle Hne) as [Hna Hlt].
  split; [exact Hna|]. intros Hnb. apply Hlt; [exact Hnb|].
  apply nth_error_In in Ha, Hb.
  destruct a as [x|s|], b as [y|u|]; try reflexivity; try congruence; exfalso.
  - assert (M : mixed (labels (any_sort_rows
                 (any_drop_duplicates_last (df_existing ++ df_new)))) = true)
      by (apply mixed_iff; split; [now exists x|now exists u]).
    congruence.
  - assert (M : mixed (labels (any_sort_rows
                 (any_drop_duplicates_last (df_existing ++ df_new)))) = true)
      by (apply mixed_iff; split; [now exists y|now exists s]).
    congruence.
Qed.

Lemma any_increasing_adjacent idx :
  (forall i a b,
     nth_error idx i = Some a -> nth_error idx (S i) = Some b ->
     label_ltb a b = true) ->
  any_increasing idx = true.
Proof.
  induction idx as [|x xs IH]; intros H; [reflexivity|].
  destruct xs as [|y ys]; [reflexivity|].
  change (label_ltb x y && any_increasing (y :: ys) = true).
  apply andb_true_intro. split.
  - apply (H 0%nat); reflexivity.
  - apply IH. intros i a b Ha Hb. apply (H (S i)); assumption.
Qed.

Lemma any_merge_increasing df_existing df_new m :
  any_merge df_existing df_new = Some m ->
  ~ In NaT (labels (df_existing ++ df_new)) ->
  any_increasing (labels m) = true.
Proof.
  intros Hm Hnat. apply any_increasing_adjacent. intros i a b Ha Hb.
  destruct (any_merge_shape _ _ _ Hm) as [_ Hadj].
  apply (Hadj i a b Ha Hb). intros ->. apply Hnat.
  apply (In_labels_any_merge _ _ _ Hm). now apply nth_error_In in Hb.
Qed.

(** *** Frames of time stamps *)

Lemma labels_stamped (df : DataFrame price) :
  labels (stamped df) = map Stamp (index df).
Proof. unfold labels, stamped, index. now rewrite !map_map. Qed.

Lemma not_mixed_stamps (l : list Z) : mixed (map Stamp l) = false.
Proof.
  unfold mixed. assert (H : existsb is_text (map Stamp l) = false).
  { induction l as [|x xs IH]; simpl; [reflexivity|exact IH]. }
  rewrite H. apply andb_false_r.
Qed.

Lemma duplicated_stamps (l : list Z) :
  any_duplicated_last (map Stamp l) = duplicated_last l.
Proof.
  induction l as [|x xs IH]; simpl; [reflexivity|]. rewrite IH. f_equal.
  clear IH. induction xs as [|y ys IHy]; simpl; [reflexivity|]. now rewrite IHy.
Qed.

Lemma select_stamped (mask : list bool) (df : DataFrame price) :
  any_select_rows mask (stamped df) = stamped (select_rows mask df).
Proof.
  revert df. induction mask as [|b bs IH]; intros [|r rs]; simpl;
    try reflexivity.
  destruct b; simpl; now rewrite IH.
Qed.

Lemma insert_stamped (r : Row price) (df : DataFrame price) :
  any_insert_row (Stamp (fst r), snd r) (stamped df) = stamped (insert_row r df).
Proof.
  induction df as [|x xs IH]; simpl; [reflexivity|].
  destruct (fst r <=? fst x); simpl; [reflexivity|]. now rewrite IH.
Qed.

Lemma sort_stamped (df : DataFrame price) :
  any_sort_rows (stamped df) = stamped (sort_index df).
Proof.
  induction df as [|x xs IH]; simpl; [reflexivity|].
  rewrite IH. apply insert_stamped.
Qed.

(** On frames of time stamps the two models of the reconciler agree. *)
Lemma any_merge_stamped (df_existing df_new : DataFrame price) :
  any_merge (stamped df_existing) (stamped df_new) =
  Some (stamped (merge df_existing df_new)).
Proof.
  unfold any_merge, any_sort_index, merge, concat.
  replace (stamped df_existing ++ stamped df_new)
    with (stamped (df_existing ++ df_new))
    by (unfold stamped; apply map_app).
  rewrite labels_stamped, duplicated_stamps, select_stamped.
  rewrite labels_stamped, not_mixed_stamps. now rewrite sort_stamped.
Qed.

(** A stored frame with a text label and a fetched frame with a time stamp
    cannot be merged: [sort_index] raises. *)
Lemma any_merge_text_raises df_existing df_new s t :
  In (Text s) (labels df_existing) -> In (Stamp t) (labels df_new) ->
  any_merge df_existing df_new = None.
Proof.
  intros Hs Ht. apply any_merge_None, mixed_iff.
  unfold labels. rewrite map_app.
  split; [exists t|exists s]; apply in_or_app; [now right|now left].
Qed.

End AnyFacts.

Section InvariantFacts.
Context {raw price : Type} (to_numeric : raw -> price).
Implicit Types (env : Env raw) (file : File price).

(** C3, as the code has it.  Whenever the merge returns, and it returns
    unless the two frames together hold both time stamps and text, no label
    occurs twice in the merged table, a missing time stamp (NaT) can only be
    the label of the last row, and every other pair of neighbouring labels
    satisfies [timestamp[i] < timestamp[i+1]], whatever the order of the
    inputs.  When no row has a missing time stamp every pair of neighbours
    is strictly increasing; on frames of time stamps the merge always
    returns and the merged table satisfies the table invariant. *)
Theorem merge_sort_invariant (df_existing df_new : AnyFrame price) :
  (mixed (labels (df_existing ++ df_new)) = false ->
     exists m, any_merge df_existing df_new = Some m) /\
  (forall m,
     any_merge df_existing df_new = Some m ->
     NoDup (labels m) /\
     (forall i a b,
        nth_error (labels m) i = Some a ->
        nth_error (labels m) (S i) = Some b ->
        a <> NaT /\ (b <> NaT -> label_ltb a b = true)) /\
     (~ In NaT (labels (df_existing ++ df_new)) ->
        any_increasing (labels m) = true)) /\
  (forall stored fetched : DataFrame price,
     any_merge (stamped stored) (stamped fetched) =
       Some (stamped (merge stored fetched)) /\
     table_invariant (merge stored fetched)).
Proof.
  split; [|split].
  - intros Hmix. destruct (any_merge df_existing df_new) as [m|] eqn:E;
      [now exists m|].
    apply any_merge_None in E. congruence.
  - intros m Hm. destruct (any_merge_shape _ _ _ Hm) as [Hnd Hadj].
    split; [exact Hnd|]. split; [exact Hadj|].
    now apply any_merge_increasing.
  - intros stored fetched. split; [apply any_merge_stamped|].
    apply increasing_lt, merge_lt.
Qed.

(** C10, as the code has it.  A stored table with repeated time stamps is
    repaired by the merge: in the merged table no label occurs twice and the
    time stamps are strictly increasing, a row with a missing time stamp, if
    there is one, being kept once as the last row; each time stamp keeps the
    last of its rows in stored-then-fetched order, so repeats inside the
    stored table collapse as well; the row count can go down, and the run
    then still writes the merged table and returns success. *)
Theorem merge_repairs_existing :
  (forall (df_existing df_new m : AnyFrame price),
     any_merge df_existing df_new = Some m ->
     NoDup (labels m) /\
     (forall i a b,
        nth_error (labels m) i = Some a ->
        nth_error (labels m) (S i) = Some b ->
        a <> NaT /\ (b <> NaT -> label_ltb a b = true)) /\
     (~ In NaT (labels (df_existing ++ df_new)) ->
        any_increasing (labels m) = true)) /\
  (forall (df_existing df_new : DataFrame price) ts r,
     ~ In ts (index df_new) -> last_at ts df_existing = Some r ->
     loc ts (merge df_existing df_new) = [r]) /\
  (forall c : Candle price, exists df_existing df_new : DataFrame price,
     df_new <> [] /\ len (merge df_existing df_new) - len df_existing < 0) /\
  (forall env file df_existing df_new,
     read_csv file = Frame df_existing ->
     fst (fetch_recent_klines to_numeric env LIMIT) = Some df_new ->
     fst (to_csv env (merge df_existing df_new) file) = true ->
     len (merge df_existing df_new) - len df_existing < 0 ->
     fst (update_csv to_numeric env file) =
       (Returned true, Some (serialize (merge df_existing df_new))) /\
     In (Log Refreshed) (snd (update_csv to_numeric env file))).
Proof.
  split; [|split; [|split]].
  - intros df_existing df_new m Hm.
    destruct (any_merge_shape _ _ _ Hm) as [Hnd Hadj].
    split; [exact Hnd|]. split; [exact Hadj|].
    now apply any_merge_increasing.
  - intros df_existing df_new ts r Hout Hlast.
    rewrite loc_unique by (apply lt_NoDup, merge_lt).
    rewrite last_at_merge, last_at_app.
    apply last_at_None in Hout. now rewrite Hout, Hlast.
  - intros c. exists [(0, c); (0, c); (0, c)], [(0, c)].
    split; [discriminate|]. vm_compute. reflexivity.
  - intros env file df_existing df_new Hread Hfetch Hdone Hneg. split.
    + rewrite (update_csv_run _ _ _ _ _ Hread Hfetch).
      now rewrite (to_csv_done _ _ _ Hdone), Hdone.
    + pose proof (update_csv_report _ _ _ _ _ Hread Hfetch Hdone) as Hlog.
      cbv zeta in Hlog.
      destruct (Z.gtb_spec (len (merge df_existing df_new) - len df_existing) 0)
        as [Hpos|_]; [lia|exact Hlog].
Qed.

End InvariantFacts.

(** C3 at the sample: with one fetched row that has no time stamp, the
    merged table ends in that row, and its last pair of neighbours is not
    increasing; and with a stored time stamp column left as text there is no
    merged table at all, the sort raises. *)
Lemma merge_keeps_missing_label :
  any_merge (stamped sample_existing) sample_new_missing =
    Some [ (Stamp (hour 0), flat 10); (Stamp (hour 1), flat 11);
           (Stamp (hour 2), flat 12); (Stamp (hour 3), flat 13);
           (NaT, flat 7) ] /\
  label_ltb (Stamp (hour 3)) NaT = false /\
  (forall m, any_merge (stamped sample_existing) sample_new_missing = Some m ->
             any_increasing (labels m) = false) /\
  any_merge sample_stored_text (stamped sample_new) = None.
Proof.
  assert (H : any_merge (stamped sample_existing) sample_new_missing =
    Some [ (Stamp (hour 0), flat 10); (Stamp (hour 1), flat 11);
           (Stamp (hour 2), flat 12); (Stamp (hour 3), flat 13);
           (NaT, flat 7) ]) by reflexivity.
  split; [exact H|]. split; [reflexivity|]. split; [|reflexivity].
  intros m Hm. rewrite H in Hm. injection Hm as <-. reflexivity.
Qed.

Lemma merge_sort_invariant_witness :
  any_merge (stamped sample_existing) sample_new_missing =
    Some [ (Stamp (hour 0), flat 10); (Stamp (hour 1), flat 11);
           (Stamp (hour 2), flat 12); (Stamp (hour 3), flat 13);
           (NaT, flat 7) ] /\
  NoDup [ Stamp (hour 0); Stamp (hour 1); Stamp (hour 2); Stamp (hour 3); NaT ] /\
  label_ltb (Stamp (hour 2)) (Stamp (hour 3)) = true.
Proof.
  assert (H : any_merge (stamped sample_existing) sample_new_missing =
    Some [ (Stamp (hour 0), flat 10); (Stamp (hour 1), flat 11);
           (Stamp (hour 2), flat 12); (Stamp (hour 3), flat 13);
           (NaT, flat 7) ]) by reflexivity.
  split; [exact H|].
  destruct (proj1 (proj2 (merge_sort_invariant (stamped sample_existing)
                                               sample_new_missing)) _ H)
    as [Hnd [Hadj _]].
  split; [exact Hnd|].
  refine (proj2 (Hadj 2%nat (Stamp (hour 2)) (Stamp (hour 3)) eq_refl eq_refl) _).
  discriminate.
Defined.

(** C10 at the sample: a stored table with a repeated time stamp and a row
    without time stamp is merged to a table free of repeats that ends in the
    row without time stamp, so its last pair of neighbours is not
    increasing. *)
Lemma merge_repair_keeps_missing_label :
  any_merge sample_repeated_missing (stamped sample_new) =
    Some [ (Stamp (hour 1), flat 5); (Stamp (hour 2), flat 99);
           (Stamp (hour 3), flat 13); (Stamp (hour 4), flat 14);
           (NaT, flat 3) ] /\
  (forall m, any_merge sample_repeated_missing (stamped sample_new) = Some m ->
             any_increasing (labels m) = false).
Proof.
  assert (H : any_merge sample_repeated_missing (stamped sample_new) =
    Some [ (Stamp (hour 1), flat 5); (Stamp (hour 2), flat 99);
           (Stamp (hour 3), flat 13); (Stamp (hour 4), flat 14);
           (NaT, flat 3) ]) by reflexivity.
  split; [exact H|].
  intros m Hm. rewrite H in Hm. injection Hm as <-. reflexivity.
Qed.

Lemma merge_repairs_existing_witness :
  read_csv (Some (serialize sample_repeated)) = Frame sample_repeated /\
  fst (fetch_recent_klines keep sample_env LIMIT) = Some sample_new /\
  len (merge sample_repeated sample_new) - len sample_repeated = -2 /\
  merge sample_repeated sample_new =
    [ (hour 1, flat 6); (hour 2, flat 99); (hour 3, flat 13); (hour 4, flat 14) ] /\
  fst (update_csv keep sample_env (Some (serialize sample_repeated))) =
    (Returned true, Some (serialize (merge sample_repeated sample_new))) /\
  In (Log Refreshed) (snd (update_csv keep sample_env (Some (serialize sample_repeated)))).
Proof.
  assert (H1 : read_csv (Some (serialize sample_repeated)) = Frame sample_repeated)
    by reflexivity.
  assert (H2 : fst (fetch_recent_klines keep sample_env LIMIT) = Some sample_new)
    by reflexivity.
  assert (H3 : fst (to_csv sample_env (merge sample_repeated sample_new)
                           (Some (serialize sample_repeated))) = true)
    by reflexivity.
  assert (H4 : len (merge sample_repeated sample_new) - len sample_repeated < 0)
    by reflexivity.
  split; [exact H1|]. split; [exact H2|]. split; [reflexivity|].
  split; [reflexivity|].
  exact (proj2 (proj2 (proj2 (merge_repairs_existing keep))) sample_env
               (Some (serialize sample_repeated)) sample_repeated sample_new
               H1 H2 H3 H4).
Defined.
